(** * opencode-kilo-free-provider: the config tools, embedded and verified

    The repository is four Python scripts that edit one JSON document
    (opencode.json):

    - install.py             fetches a model catalogue, keeps the free models
                             and deep-merges a provider block into the document;
    - sync_models.py         the same filter, projected into documentation;
    - uninstall.py           removes the provider block after a confirmation;
    - remove_kilo_anonymous.py   the same removal for the legacy key.

    Python values are embedded as the data type [json]; a [dict] that comes
    from a JSON document is a finite map with string keys (stdpp's [gmap]),
    so that equality of maps is Python's [==] on dicts: the same keys with
    equal values, whatever the insertion order.  The dict the filter builds is
    keyed by the ids of the records, which need not be strings: it is a map
    over [pykey].  Code that can raise returns a [result]. *)

From stdpp Require Import gmap strings list fin_maps pretty.
From Stdlib Require Import Ascii String.

#[local] Set Warnings "-register-all".
#[local] Open Scope string_scope.

(** ** Python values as loaded by [json.load] *)

(** A [float] is kept as the text [repr] prints for it (0.0, 1e-07, ...): the
    scripts look at numbers through [str()], and through [==] where the id of
    a record is a number.  A [str] is a sequence of code points below 256,
    one [ascii] each. *)
Inductive json :=
  | JNull
  | JBool (b : bool)
  | JInt (z : Z)
  | JFloat (repr : string)
  | JStr (s : string)
  | JArr (l : list json)
  | JObj (d : gmap string json).

Definition is_dict (v : json) : bool :=
  match v with JObj _ => true | _ => false end.

(** ** Exceptions *)

Inductive exn := KeyError | TypeError | AttributeError.

Inductive result (A : Type) :=
  | Ok (a : A)
  | Raise (e : exn).
Arguments Ok {A} a.
Arguments Raise {A} e.

Definition bind {A B} (r : result A) (k : A → result B) : result B :=
  match r with
  | Ok a => k a
  | Raise e => Raise e
  end.

Notation "'let*' x ':=' r 'in' k" := (bind r (fun x => k))
  (at level 10, x pattern, r at level 100, k at level 200).

(** ** Strings: [str()], [strip()], [lower()], [endswith()], [in] *)

(** [str.isspace] on the code points below 256. *)
Definition is_space (a : ascii) : bool :=
  let n := nat_of_ascii a in
  ((9 <=? n) && (n <=? 13) || (28 <=? n) && (n <=? 32)
   || (n =? 133) || (n =? 160))%nat.

Fixpoint lstrip (s : string) : string :=
  match s with
  | String a s' => if is_space a then lstrip s' else s
  | EmptyString => EmptyString
  end.

Definition rstrip (s : string) : string :=
  String.rev (lstrip (String.rev s)).

(** [s.strip()] *)
Definition strip (s : string) : string := rstrip (lstrip s).

(** [s.endswith(suffix)] *)
Definition endswith (s suffix : string) : bool :=
  String.prefix (String.rev suffix) (String.rev s).

(** [s.lower()] on the code points below 256: A-Z, and the Latin-1 capitals
    192-222 apart from the multiplication sign 215. *)
Definition lower_ascii (a : ascii) : ascii :=
  let n := nat_of_ascii a in
  if ((65 <=? n) && (n <=? 90)
      || (192 <=? n) && (n <=? 222) && negb (n =? 215))%nat
  then ascii_of_nat (n + 32) else a.

Fixpoint lower (s : string) : string :=
  match s with
  | String a s' => String (lower_ascii a) (lower s')
  | EmptyString => EmptyString
  end.

(** [sub in s] for two strings. *)
Definition contains (sub s : string) : bool :=
  match String.index 0 sub s with Some _ => true | None => false end.

(** [str(v)] for the scalars.  The text of a list or a dict is a bracketed
    display of its items in insertion order, which a [gmap] does not keep; it
    is not produced here, and its users say what they need of it. *)
Definition py_str (v : json) : option string :=
  match v with
  | JNull => Some "None"
  | JBool true => Some "True"
  | JBool false => Some "False"
  | JInt z => Some (pretty z)
  | JFloat r => Some r
  | JStr s => Some s
  | JArr _ | JObj _ => None
  end.

(** ** install.py: [deep_merge] *)

(** [[
def deep_merge(base: dict, override: dict) -> dict:
    result = base.copy()
    for key, value in override.items():
        if key in result and isinstance(result[key], dict) and isinstance(value, dict):
            result[key] = deep_merge(result[key], value)
        else:
            result[key] = value
    return result
]]
    One round of the loop, given the function used for the recursive call. *)
Definition merge_step (rec : gmap string json → json → gmap string json)
    (key : string) (value : json) (result : gmap string json) : gmap string json :=
  match result !! key, value with
  | Some (JObj b), JObj _ => <[key := JObj (rec b value)]> result
  | _, _ => <[key := value]> result
  end.

(** The recursion descends into [override], which is passed as a value so that
    the nested call is on a subterm; [deep_merge] below is the function of the
    source.  [map_fold] goes through the items in an order of its own, not in
    the insertion order of Python; the keys of a dict are distinct, and for
    distinct keys the order makes no difference ([spec_merge_deep_merge]). *)
Fixpoint merge_into (base : gmap string json) (override : json) {struct override}
    : gmap string json :=
  match override with
  | JObj o => map_fold (merge_step merge_into) base o
  | _ => base
  end.

Definition deep_merge (base override : gmap string json) : gmap string json :=
  merge_into base (JObj override).

(** What ends up under a key that [override] has: the merge of the two values
    when both are dicts, the override's value otherwise. *)
Definition merged_value (old : option json) (value : json) : json :=
  match old, value with
  | Some (JObj b), JObj o => JObj (deep_merge b o)
  | _, _ => value
  end.

(** The algorithm in the words of the specification, over the items of the
    override in the order they come in: if the key exists in the result and
    both the existing value and the override value are mappings, merge them
    and store the result; otherwise the override value replaces, or
    introduces, the key. *)
Definition spec_merge_step (result : gmap string json) (item : string * json)
    : gmap string json :=
  match result !! item.1, item.2 with
  | Some (JObj existing), JObj o => <[item.1 := JObj (deep_merge existing o)]> result
  | _, _ => <[item.1 := item.2]> result
  end.

Definition spec_merge (base : gmap string json) (items : list (string * json))
    : gmap string json :=
  foldl spec_merge_step base items.

(** ** install.py, sync_models.py: the free-model filter *)

(** [d.get(k, dflt)] *)
Definition dict_get (d : gmap string json) (k : string) (dflt : json) : json :=
  default dflt (d !! k).

Definition MANUAL_MODELS : gmap string json :=
  {[ "giga-potato" := JStr "Giga Potato (free)";
     "giga-potato-thinking" := JStr "Giga Potato Thinking (free)" ]}.

Definition FALLBACK_MODELS : gmap string json :=
  {[ "arcee-ai/trinity-large-preview:free" := JStr "Arcee AI: Trinity Large Preview (free)";
     "corethink:free" := JStr "CoreThink (free)";
     "giga-potato" := JStr "Giga Potato (free)";
     "giga-potato-thinking" := JStr "Giga Potato Thinking (free)";
     "minimax/minimax-m2.5:free" := JStr "MiniMax: MiniMax M2.5 (free)";
     "openrouter/free" := JStr "Free Models Router (free)";
     "qwen/qwen3-235b-a22b-thinking-2507" := JStr "Qwen: Qwen3 235B A22B Thinking 2507";
     "qwen/qwen3-vl-235b-a22b-thinking" := JStr "Qwen: Qwen3 VL 235B A22B Thinking";
     "qwen/qwen3-vl-30b-a3b-thinking" := JStr "Qwen: Qwen3 VL 30B A3B Thinking";
     "stepfun/step-3.5-flash:free" := JStr "StepFun: Step 3.5 Flash (free)";
     "z-ai/glm-5:free" := JStr "Z.ai: GLM 5 (free)" ]}.

(** [[
def is_free_by_suffix(m: dict) -> bool:
    return str(m.get("id", "")).endswith(":free")
]]
    Only a dict has [get].  The display of a list or a dict ends with its
    closing bracket, never with the suffix. *)
Definition is_free_by_suffix (m : json) : result bool :=
  match m with
  | JObj d =>
      match py_str (dict_get d "id" (JStr "")) with
      | Some s => Ok (endswith s ":free")
      | None => Ok false
      end
  | _ => Raise AttributeError
  end.

(** [str(v).strip() in ("0", "0.0")].  The display of a list or a dict starts
    with its opening bracket, which [strip] keeps. *)
Definition is_zero_text (v : json) : bool :=
  match py_str v with
  | Some s => bool_decide (strip s ∈ ["0"; "0.0"])
  | None => false
  end.

(** [[
def is_free_by_pricing(m: dict) -> bool:
    p = m.get("pricing", {})
    return (str(p.get("prompt", "")).strip() in ("0", "0.0") and
            str(p.get("completion", "")).strip() in ("0", "0.0"))
]] *)
Definition is_free_by_pricing (m : json) : result bool :=
  match m with
  | JObj d =>
      match dict_get d "pricing" (JObj ∅) with
      | JObj p =>
          Ok (is_zero_text (dict_get p "prompt" (JStr ""))
              && is_zero_text (dict_get p "completion" (JStr "")))
      | _ => Raise AttributeError
      end
  | _ => Raise AttributeError
  end.

(** [[m for m in models if p(m)]], with a predicate that can raise. *)
Fixpoint filter_by (p : json → result bool) (models : list json)
    : result (list json) :=
  match models with
  | [] => Ok []
  | m :: rest =>
      let* b := p m in
      let* kept := filter_by p rest in
      Ok (if b then m :: kept else kept)
  end.

(** *** The keys of a dict

    A dict takes whatever is hashable as a key and finds a key by hash and
    [==].  Of the values [json.load] gives, a list and a dict are not
    hashable; a str equals that str only; None equals None only; and the
    numbers are compared by value, with True and False being 1 and 0, so that
    [1], [1.0] and [True] are one key.  A key is kept here as what it is
    equal to: [KNum z] for every number equal to the integer z, [KFloat] with
    its text for a float that no integer equals.  Two such floats are equal
    when their texts are, [nan] too: [json.load] gives the one object
    [json.decoder.NaN] for every NaN, and a dict finds a key that is the same
    object.  Which of several equal keys the dict shows (it keeps the first)
    is not kept. *)
Inductive pykey :=
  | KNone
  | KNum (z : Z)
  | KFloat (repr : string)
  | KStr (s : string).

#[global] Instance pykey_eq_dec : EqDecision pykey.
Proof. solve_decision. Defined.

#[global] Instance pykey_countable : Countable pykey.
Proof.
  refine (inj_countable'
    (λ k, match k with
          | KNone => inl ()
          | KNum z => inr (inl z)
          | KFloat r => inr (inr (inl r))
          | KStr s => inr (inr (inr s))
          end)
    (λ x, match x with
          | inl () => KNone
          | inr (inl z) => KNum z
          | inr (inr (inl r)) => KFloat r
          | inr (inr (inr s)) => KStr s
          end) _).
  by intros [].
Defined.

Definition digit_of (a : ascii) : option Z :=
  let n := nat_of_ascii a in
  if ((48 <=? n) && (n <=? 57))%nat then Some (Z.of_nat n - 48)%Z else None.

(** The digits a text starts with: their value after [acc], their number
    after [count], and the rest of the text. *)
Fixpoint read_digits (s : string) (acc : Z) (count : nat) : Z * nat * string :=
  match s with
  | String a s' =>
      match digit_of a with
      | Some d => read_digits s' (10 * acc + d)%Z (S count)
      | None => (acc, count, s)
      end
  | EmptyString => (acc, count, s)
  end.

(** The exponent of a float's text: none, or [e], a sign and digits. *)
Definition read_exponent (s : string) : option Z :=
  match s with
  | EmptyString => Some 0%Z
  | String "e" s' =>
      let '(negative, s'') :=
        match s' with
        | String "-" t => (true, t)
        | String "+" t => (false, t)
        | _ => (false, s')
        end in
      match read_digits s'' 0 0 with
      | (_, O, _) => None
      | (x, _, EmptyString) => Some (if negative then - x else x)%Z
      | _ => None
      end
  | _ => None
  end.

(** The float nearest to a natural number: the number itself below 2^53,
    and above it the multiple of the power of two that leaves 53 bits, the
    even one of two that are equally near. *)
Definition round53 (q : Z) : Z :=
  if (q <? 2 ^ 53)%Z then q
  else
    let e := (Z.log2 q - 52)%Z in
    let n := (q / 2 ^ e)%Z in
    let rest := (q mod 2 ^ e)%Z in
    let half := (2 ^ (e - 1))%Z in
    let up := ((half <? rest) || ((rest =? half) && Z.odd n))%Z in
    ((if up then n + 1 else n) * 2 ^ e)%Z.

(** The integer a float is equal to, from its text ([5.0], [-0.0], [1e+16],
    [1.5e+16]): the text is a decimal, digits with a fraction and an exponent,
    and the float is the one nearest to that decimal.  [None] for a float
    that is no integer ([0.5], [1e-05], [inf], [nan]). *)
Definition float_int_value (repr : string) : option Z :=
  let '(negative, body) :=
    match repr with
    | String "-" s => (true, s)
    | _ => (false, repr)
    end in
  match read_digits body 0 0 with
  | (_, O, _) => None
  | (i, _, rest) =>
      let '(n, fraction, rest') :=
        match rest with
        | String "." s => read_digits s i 0
        | _ => (i, O, rest)
        end in
      match read_exponent rest' with
      | None => None
      | Some e =>
          let scale := (e - Z.of_nat fraction)%Z in
          let q :=
            if (0 <=? scale)%Z then Some (n * 10 ^ scale)%Z
            else if (n mod 10 ^ (- scale) =? 0)%Z then Some (n / 10 ^ (- scale))%Z
                 else None in
          (λ q, if negative then (- round53 q)%Z else round53 q) <$> q
      end
  end.

(** The key a value is, [None] for a list or a dict ([TypeError: unhashable
    type]). *)
Definition key_of (v : json) : option pykey :=
  match v with
  | JNull => Some KNone
  | JBool b => Some (KNum (if b then 1 else 0))
  | JInt z => Some (KNum z)
  | JFloat r =>
      Some (match float_int_value r with
            | Some z => KNum z
            | None => KFloat r
            end)
  | JStr s => Some (KStr s)
  | JArr _ | JObj _ => None
  end.

(** [results[m["id"]] = m.get("name", m["id"])].  [m["id"]] raises KeyError
    when the field is missing, also when the record has a name; an id that
    is a list or a dict cannot be a key; any other id is stored, a number, a
    boolean or None too, and is the name of a record without a name. *)
Definition store_model (results : gmap pykey json) (m : json)
    : result (gmap pykey json) :=
  match m with
  | JObj d =>
      match d !! "id" with
      | None => Raise KeyError
      | Some mid =>
          match key_of mid with
          | Some k => Ok (<[k := dict_get d "name" mid]> results)
          | None => Raise TypeError
          end
      end
  | _ => Raise TypeError
  end.

Fixpoint store_models (results : gmap pykey json) (ms : list json)
    : result (gmap pykey json) :=
  match ms with
  | [] => Ok results
  | m :: rest =>
      let* results' := store_model results m in
      store_models results' rest
  end.

(** [[
def collect_free_models(models: list[dict]) -> dict[str, str]:
    results: dict[str, str] = {}
    by_suffix  = [m for m in models if is_free_by_suffix(m)]
    by_pricing = [m for m in models if is_free_by_pricing(m)]
    for m in by_suffix + by_pricing:
        results[m["id"]] = m.get("name", m["id"])
    for mid, name in MANUAL_MODELS.items():
        results[mid] = name
    return results
]]
    The manual map is a parameter here; the scripts fix it to
    [MANUAL_MODELS].  Its keys are the str keys of a literal. *)
Definition collect_free_models_with (manual : gmap string json)
    (models : list json) : result (gmap pykey json) :=
  let* by_suffix := filter_by is_free_by_suffix models in
  let* by_pricing := filter_by is_free_by_pricing models in
  let* results := store_models ∅ (by_suffix ++ by_pricing) in
  Ok (map_fold (fun mid name results => <[KStr mid := name]> results)
        results manual).

Definition collect_free_models (models : list json) : result (gmap pykey json) :=
  collect_free_models_with MANUAL_MODELS models.

(** [[
def build_model_entries(id_to_name):
    return { mid: {"name": name} for mid, name in sorted(id_to_name.items()) }
]]
    Sorting fixes the insertion order only. *)
Definition build_model_entries (id_to_name : gmap string json)
    : gmap string json :=
  (fun name => JObj {[ "name" := name ]}) <$> id_to_name.

(** ** install.py: [main] *)

(** [key == v] for a string [key]. *)
Definition is_str (key : string) (v : json) : bool :=
  match v with
  | JStr s => String.eqb key s
  | _ => false
  end.

(** [not d], negated twice: the dict has no item. *)
Definition dict_is_empty (d : gmap string json) : bool :=
  match map_to_list d with
  | [] => true
  | _ :: _ => false
  end.

Definition PROVIDER_KEY : string := "kilo-gateway-free".

(** What reading opencode.json gives: no file, a read that fails, text that
    is not JSON, or the loaded value. *)
Inductive disk :=
  | NoFile
  | Unreadable
  | InvalidJSON
  | Loaded (doc : json).

(** How a script ends: it returns without writing, writes the document,
    leaves through [sys.exit], or dies of an exception nobody catches. *)
Inductive outcome :=
  | Returned
  | Written (doc : json)
  | Exited (code : Z)
  | Crashed (e : exn).

(** The override of the provider entry (lines 185-194). *)
Definition provider_defaults (model_entries : gmap string json)
    : gmap string json :=
  {[ "npm" := JStr "@ai-sdk/openai-compatible";
     "name" := JStr "Kilo Gateway Free";
     "options" := JObj
       {[ "baseURL" := JStr "https://api.kilo.ai/api/openrouter/";
          "apiKey" := JStr "anonymous";
          "headers" := JObj {[ "User-Agent" := JStr "opencode-kilo-provider" ]} ]};
     "models" := JObj model_entries ]}.

(** [[
    if "$schema" not in existing:
        existing["$schema"] = "https://opencode.ai/config.json"
]]
    on a value that need not be a dict: [in] looks for an element in a list
    and for a substring in a string and raises on the other scalars; only a
    dict takes the assignment. *)
Definition ensure_schema (existing : json) : result json :=
  match existing with
  | JObj e =>
      match e !! "$schema" with
      | Some _ => Ok existing
      | None => Ok (JObj (<["$schema" := JStr "https://opencode.ai/config.json"]> e))
      end
  | JArr l => if existsb (is_str "$schema") l then Ok existing else Raise TypeError
  | JStr s => if contains "$schema" s then Ok existing else Raise TypeError
  | _ => Raise TypeError
  end.

(** [x.get(key, {})]: only a dict has [get]. *)
Definition get_or_empty (x : json) (key : string) : result json :=
  match x with
  | JObj d => Ok (dict_get d key (JObj ∅))
  | _ => Raise AttributeError
  end.

(** [deep_merge(base, override)] on a base that need not be a dict: a list
    has [copy] and fails at the first key of the loop, if there is one; the
    scalars have no [copy]. *)
Definition deep_merge_any (base : json) (override : gmap string json)
    : result json :=
  match base with
  | JObj b => Ok (JObj (deep_merge b override))
  | JArr l => if dict_is_empty override then Ok (JArr l) else Raise TypeError
  | _ => Raise AttributeError
  end.

(** Lines 180-196 of [main]: from the loaded value to the value written. *)
Definition update_config (loaded : json) (model_entries : gmap string json)
    : result json :=
  let* existing := ensure_schema loaded in
  let* providers := get_or_empty existing "provider" in
  let* existing_provider := get_or_empty providers PROVIDER_KEY in
  let* updated_provider :=
    deep_merge_any existing_provider (provider_defaults model_entries) in
  deep_merge_any existing
    {[ "provider" := JObj {[ PROVIDER_KEY := updated_provider ]} ]}.

(** One run of install.py: the two flags, what the fetch returned ([None] on
    any failure, the list under "data" otherwise), what is on disk, and
    whether the final write succeeds. *)
Record run := {
  dry_run : bool;
  offline : bool;
  fetched : option (list json);
  on_disk : disk;
  writable : bool
}.

(** The dict with its keys as strings, when all its keys are. *)
Definition str_keys (results : gmap pykey json) : option (gmap string json) :=
  map_fold (fun k name acc =>
              match k with
              | KStr s => (λ m : gmap string json, <[s := name]> m) <$> acc
              | _ => None
              end)
    (Some ∅) results.

(** Lines 139-148: the map of ids and names that [build_model_entries] is
    given and accepts.  The call of [build_model_entries] follows the
    resolution at once, and its [sorted(id_to_name.items())] compares the
    keys: what [collect_free_models] returns has the str keys of
    [MANUAL_MODELS], and a str does not compare with a number or with None,
    so that a key which is not a str makes the sorting raise TypeError. *)
Definition resolve_models (r : run) : result (gmap string json) :=
  if offline r then Ok FALLBACK_MODELS
  else match fetched r with
       | None => Ok FALLBACK_MODELS
       | Some raw =>
           let* id_to_name := collect_free_models raw in
           match str_keys id_to_name with
           | Some id_to_name => Ok id_to_name
           | None => Raise TypeError
           end
       end.

(** The value [existing] holds after the read (lines 168-178); [None] is
    [sys.exit(1)]. *)
Definition load_existing (d : disk) : option json :=
  match d with
  | NoFile => Some (JObj ∅)
  | InvalidJSON => Some (JObj ∅)
  | Unreadable => None
  | Loaded doc => Some doc
  end.

(** [main], from the flags to the write.  The path of the file and the
    creation of its directory ([get_config_path], [os.makedirs]) depend on the
    platform only and are left out; the printing has no effect on the
    document. *)
Definition main (r : run) : outcome :=
  match resolve_models r with
  | Raise e => Crashed e
  | Ok id_to_name =>
      let model_entries := build_model_entries id_to_name in
      if dry_run r then Returned
      else match load_existing (on_disk r) with
           | None => Exited 1
           | Some existing =>
               match update_config existing model_entries with
               | Raise e => Crashed e
               | Ok merged => if writable r then Written merged else Exited 1
               end
           end
  end.

(** ** uninstall.py and remove_kilo_anonymous.py: [main] *)

(** [key not in providers], negated. *)
Definition key_in (key : string) (providers : json) : result bool :=
  match providers with
  | JObj ps => Ok (bool_decide (key ∈ dom ps))
  | JArr l => Ok (existsb (is_str key) l)
  | JStr s => Ok (contains key s)
  | _ => Raise TypeError
  end.

(** The two scripts differ in the key and in their messages.
[[
    providers = config.get("provider", {})
    if KEY not in providers: sys.exit(0)
    confirm = input(...)
    if confirm.strip().lower() != "y": sys.exit(0)
    del providers[KEY]
    if not providers:
        del config["provider"]
    json.dump(config, f, indent=2)
]]
    [providers] is the very dict stored under "provider" whenever the key was
    found in it, so the deletion shows in [config]. *)
Definition remove_provider (key : string) (d : disk) (confirm : string)
    (can_write : bool) : outcome :=
  match d with
  | NoFile => Exited 0
  | Unreadable | InvalidJSON => Exited 1
  | Loaded config =>
      match get_or_empty config "provider" with
      | Raise e => Crashed e
      | Ok providers =>
          match key_in key providers with
          | Raise e => Crashed e
          | Ok false => Exited 0
          | Ok true =>
              if negb (String.eqb (lower (strip confirm)) "y") then Exited 0
              else match config, providers with
                   | JObj c, JObj ps =>
                       let ps' := delete key ps in
                       let c' := if dict_is_empty ps' then delete "provider" c
                                 else <["provider" := JObj ps']> c in
                       if can_write then Written (JObj c') else Exited 1
                   | _, _ => Crashed TypeError
                   end
          end
      end
  end.

Definition uninstall_main : disk → string → bool → outcome :=
  remove_provider "kilo-gateway-free".

Definition OLD_KEY : string := "kilo-anonymous".

Definition remove_kilo_anonymous_main : disk → string → bool → outcome :=
  remove_provider OLD_KEY.

(** ** Notions the properties are stated with *)

(** The value a call left under a str key, when the call returned. *)
Definition result_lookup (r : result (gmap pykey json)) (k : string)
    : option json :=
  match r with
  | Ok results => results !! KStr k
  | Raise _ => None
  end.

(** The same for any key. *)
Definition result_at (r : result (gmap pykey json)) (k : pykey) : option json :=
  match r with
  | Ok results => results !! k
  | Raise _ => None
  end.

(** [v[k1][k2]...] as far as the path leads through dicts. *)
Fixpoint lookup_path (path : list string) (v : json) : option json :=
  match path with
  | [] => Some v
  | k :: rest =>
      match v with
      | JObj d => d !! k ≫= lookup_path rest
      | _ => None
      end
  end.

(** What a run left at a path of the document it wrote. *)
Definition written_lookup (o : outcome) (path : list string) : option json :=
  match o with
  | Written doc => lookup_path path doc
  | _ => None
  end.

(** A record that one of the two rules selects. *)
Definition selected (m : json) : Prop :=
  is_free_by_suffix m = Ok true ∨ is_free_by_pricing m = Ok true.

(** The name the manual map has for a key: its keys are strs. *)
Definition manual_name (manual : gmap string json) (k : pykey) : option json :=
  match k with
  | KStr mid => manual !! mid
  | _ => None
  end.

(** A record the filter can take: a dict with an id that can be a key and a
    pricing that is a dict, when there is one. *)
Definition storable_record (m : json) : Prop :=
  ∃ d mid k, m = JObj d ∧ d !! "id" = Some mid ∧ key_of mid = Some k
             ∧ (d !! "pricing" = None ∨ ∃ p, d !! "pricing" = Some (JObj p)).

(** A record as the catalogue has them: a dict with a string id and a
    pricing that is a dict, when there is one. *)
Definition well_formed_record (m : json) : Prop :=
  ∃ d mid, m = JObj d ∧ d !! "id" = Some (JStr mid)
           ∧ (d !! "pricing" = None ∨ ∃ p, d !! "pricing" = Some (JObj p)).


(** The text of a pricing field is a zero: the field has a text, and the
    text without the whitespace around it is 0 or 0.0. *)
Definition zero_text (v : json) : Prop :=
  ∃ s, py_str v = Some s ∧ (strip s = "0" ∨ strip s = "0.0").

(** The default of line 181. *)
Definition SCHEMA_URL : json := JStr "https://opencode.ai/config.json".

(** The document after lines 180-181. *)
Definition with_schema (D : gmap string json) : gmap string json :=
  match D !! "$schema" with
  | Some _ => D
  | None => <["$schema" := SCHEMA_URL]> D
  end.

(** The override of the second merge (line 196). *)
Definition provider_override (updated_provider : json) : gmap string json :=
  {[ "provider" := JObj {[ PROVIDER_KEY := updated_provider ]} ]}.

(** The answer counts as a yes. *)
Definition confirmed (confirm : string) : Prop := lower (strip confirm) = "y".

(** ** Sample inputs *)

(** Two dicts that both have a dict under "a". *)
Definition sample_base : gmap string json :=
  {[ "a" := JObj {[ "x" := JInt 1 ]}; "b" := JInt 2 ]}.

Definition sample_override : gmap string json :=
  {[ "a" := JObj {[ "y" := JInt 3 ]}; "c" := JArr [JInt 2] ]}.

(** Three records: an empty name, an id the manual map has, a zero pricing
    given as a number and as a padded string. *)
Definition empty_name_record : gmap string json :=
  {[ "id" := JStr "x:free"; "name" := JStr "" ]}.

Definition potato_record : gmap string json :=
  {[ "id" := JStr "giga-potato"; "name" := JStr "Potato";
     "pricing" := JObj {[ "prompt" := JStr "0"; "completion" := JStr "0" ]} ]}.

Definition zero_priced_record : gmap string json :=
  {[ "id" := JStr "c";
     "pricing" := JObj {[ "prompt" := JInt 0; "completion" := JStr " 0.0 " ]} ]}.

(** A zero-priced record whose id is a number, and one whose id is the
    float equal to it. *)
Definition number_id_record : gmap string json :=
  {[ "id" := JInt 5;
     "pricing" := JObj {[ "prompt" := JInt 0; "completion" := JInt 0 ]} ]}.

Definition float_id_record : gmap string json :=
  {[ "id" := JFloat "5.0"; "name" := JStr "Five";
     "pricing" := JObj {[ "prompt" := JInt 0; "completion" := JInt 0 ]} ]}.


Definition sample_catalogue : list json :=
  [ JObj {[ "id" := JStr "a:free"; "name" := JStr "A" ]};
    JObj {[ "id" := JStr "b"; "pricing" := JObj {[ "prompt" := JStr "1" ]} ]};
    JObj zero_priced_record ].

(** A document with settings of another feature, another provider, and a
    provider entry of an earlier install whose models list has an id that the
    catalogue no longer has. *)
Definition old_entry : gmap string json :=
  {[ "models" := JObj {[ "stale" := JObj {[ "name" := JStr "Stale" ]} ]} ]}.

Definition old_providers : gmap string json :=
  {[ "kilo-gateway-free" := JObj old_entry;
     "other-provider" := JObj {[ "npm" := JStr "x" ]} ]}.

Definition old_config : gmap string json :=
  {[ "other" := JObj {[ "x" := JInt 1 ]};
     "provider" := JObj old_providers ]}.

(** An offline run and a run with a one-record catalogue over that document. *)
Definition offline_run : run :=
  {| dry_run := false; offline := true; fetched := None;
     on_disk := Loaded (JObj old_config); writable := true |}.

Definition online_run : run :=
  {| dry_run := false; offline := false;
     fetched := Some [JObj {[ "id" := JStr "a:free"; "name" := JStr "A" ]}];
     on_disk := Loaded (JObj old_config); writable := true |}.

(** A document whose only provider is the one to remove. *)
Definition sole_provider_config : gmap string json :=
  {[ "theme" := JStr "dark";
     "provider" := JObj {[ "kilo-gateway-free" := JObj old_entry ]} ]}.

(** ** Further notions and sample inputs *)

(** The number of values in a value, dicts counted with their items. *)
Fixpoint jsize (v : json) : nat :=
  match v with
  | JObj d => S (map_fold (fun _ x n => jsize x + n) 0 d)
  | _ => 1
  end.

(** The override has something on the path: it holds a value that is not a
    dict at the path or above it, or a value at the path itself. *)
Fixpoint overridden (path : list string) (override : json) : bool :=
  match path with
  | [] => true
  | k :: rest =>
      match override with
      | JObj o =>
          match o !! k with
          | Some x => overridden rest x
          | None => false
          end
      | _ => true
      end
  end.

(** The run [r] again, on the file as [doc]. *)
Definition run_on (r : run) (doc : json) : run :=
  {| dry_run := dry_run r; offline := offline r; fetched := fetched r;
     on_disk := Loaded doc; writable := writable r |}.

(** The document install.py writes when there is none to start from. *)
Definition fresh_config (model_entries : gmap string json) : gmap string json :=
  {[ "$schema" := SCHEMA_URL;
     "provider" := JObj {[ PROVIDER_KEY := JObj (provider_defaults model_entries) ]} ]}.

(** The loaded value is a dict, and so are its provider block and the entry
    of this provider, when they are there: [P] and [E] are the two, or empty
    dicts in their place. *)
Definition config_shape (loaded : json) (D P E : gmap string json) : Prop :=
  loaded = JObj D
  ∧ dict_get D "provider" (JObj ∅) = JObj P
  ∧ dict_get P PROVIDER_KEY (JObj ∅) = JObj E.

(** A document whose entry for this provider has settings of the user's: a
    key of its own, a key of its own in the options, and an apiKey. *)
Definition custom_entry : gmap string json :=
  {[ "note" := JStr "mine";
     "options" := JObj {[ "apiKey" := JStr "secret"; "timeout" := JInt 30 ]} ]}.

Definition custom_config : gmap string json :=
  {[ "theme" := JStr "dark";
     "provider" := JObj {[ PROVIDER_KEY := JObj custom_entry ]} ]}.

Definition custom_run : run :=
  {| dry_run := false; offline := true; fetched := None;
     on_disk := Loaded (JObj custom_config); writable := true |}.

(** The dict at a path of a document, or the empty dict when there is none. *)
Definition dict_at (path : list string) (doc : json) : gmap string json :=
  match lookup_path path doc with
  | Some (JObj d) => d
  | _ => ∅
  end.

(** An offline run over a file that is not JSON. *)
Definition corrupt_run : run :=
  {| dry_run := false; offline := true; fetched := None;
     on_disk := InvalidJSON; writable := true |}.

(** A record on which the pricing rule raises: it is not a dict, or it has
    something under "pricing" that is not a dict. *)
Definition bad_pricing (m : json) : Prop :=
  match m with
  | JObj d => ∃ v, d !! "pricing" = Some v ∧ is_dict v = false
  | _ => True
  end.

(** A record has an id that can be a key. *)
Definition has_key (m : json) : Prop :=
  ∃ d mid k, m = JObj d ∧ d !! "id" = Some mid ∧ key_of mid = Some k.

(** A catalogue with a record whose pricing is null. *)
Definition null_pricing_catalogue : list json :=
  [ JObj {[ "id" := JStr "a:free" ]};
    JObj {[ "id" := JStr "b"; "pricing" := JNull ]} ].

(** A document with the providers of the two removal scripts and a third. *)
Definition three_providers : gmap string json :=
  {[ "kilo-gateway-free" := JObj old_entry;
     "kilo-anonymous" := JObj {[ "npm" := JStr "old" ]};
     "other-provider" := JObj {[ "npm" := JStr "x" ]} ]}.

Definition three_providers_config : gmap string json :=
  {[ "theme" := JStr "dark"; "provider" := JObj three_providers ]}.

(** ** sync_models.py: [update_example_config] *)






(** The function on values, under a name of its own: inside [Heap] the name
    [deep_merge] is the function on stores. *)
Abbreviation dict_merge := deep_merge (only parsing).

(** ** [deep_merge] on a store of objects

    Python passes dicts and lists by reference.  To say what a call does to
    its arguments the function is embedded a second time, over a store in
    which every dict and list sits at a location and values point to them. *)
Module Heap.

Inductive value :=
  | VNull
  | VBool (b : bool)
  | VInt (z : Z)
  | VFloat (repr : string)
  | VStr (s : string)
  | VRef (l : positive).

Inductive object :=
  | ODict (d : gmap string value)
  | OList (vs : list value).

(** How a call ends: with a store and the location of the dict it returns,
    with an exception, or cut short by the fuel of the embedding. *)
Inductive ending :=
  | Done (σ : gmap positive object) (r : positive)
  | Raised
  | OutOfFuel.

(** [isinstance(v, dict)]: the location of the dict, if [v] is one. *)
Definition dict_loc (σ : gmap positive object) (v : value) : option positive :=
  match v with
  | VRef l =>
      match σ !! l with
      | Some (ODict _) => Some l
      | _ => None
      end
  | _ => None
  end.

(** [result[key] = v] *)
Definition set_item (σ : gmap positive object) (result : positive)
    (key : string) (v : value) : ending :=
  match σ !! result with
  | Some (ODict res) => Done (<[result := ODict (<[key := v]> res)]> σ) result
  | _ => Raised
  end.

(** One round of the loop on the dict at [result]. *)
Definition merge_round
    (rec : gmap positive object → positive → positive → ending)
    (result : positive) (key : string) (v : value) (acc : ending) : ending :=
  match acc with
  | Done σ _ =>
      match σ !! result with
      | Some (ODict res) =>
          match res !! key ≫= dict_loc σ, dict_loc σ v with
          | Some lb, Some lo =>
              match rec σ lb lo with
              | Done σ' r' => set_item σ' result key (VRef r')
              | other => other
              end
          | _, _ => set_item σ result key v
          end
      | _ => Raised
      end
  | other => other
  end.

(** [deep_merge(base, override)]: [base.copy()] is a new dict at a fresh
    location, the loop writes to that dict only, and the recursive calls are
    cut off when the fuel runs out. *)
Fixpoint deep_merge (fuel : nat) (σ : gmap positive object)
    (base override : positive) : ending :=
  match fuel with
  | 0 => OutOfFuel
  | S fuel' =>
      match σ !! base, σ !! override with
      | Some (ODict b), Some (ODict o) =>
          let result := fresh (dom σ) in
          map_fold (merge_round (deep_merge fuel') result)
            (Done (<[result := ODict b]> σ) result) o
      | _, _ => Raised
      end
  end.

(** [option] over the values of a dict: all of them, or nothing. *)
Definition dict_mapM (f : value → option json) (d : gmap string value)
    : option (gmap string json) :=
  map_fold (fun k v acc => j ← f v; m ← acc; Some (<[k := j]> m)) (Some ∅) d.

(** The value a reference stands for, read through the store down to depth
    [n]; [None] when the structure is deeper or a location is missing. *)
Fixpoint reify (n : nat) (σ : gmap positive object) (v : value) : option json :=
  match v with
  | VNull => Some JNull
  | VBool b => Some (JBool b)
  | VInt z => Some (JInt z)
  | VFloat r => Some (JFloat r)
  | VStr s => Some (JStr s)
  | VRef l =>
      match n with
      | 0 => None
      | S n' =>
          match σ !! l with
          | Some (ODict d) => JObj <$> dict_mapM (reify n' σ) d
          | Some (OList vs) => JArr <$> mapM (reify n' σ) vs
          | None => None
          end
      end
  end.

(** [m] is [d] read value by value with [f]. *)
Definition reads_dict (f : value → option json)
    (d : gmap string value) (m : gmap string json) : Prop :=
  ∀ k, match d !! k with
       | Some v => ∃ j, f v = Some j ∧ m !! k = Some j
       | None => m !! k = None
       end.

(** The locations of [τ'] that [τ] does not have are new to [σ]. *)
Definition grows_outside (σ τ τ' : gmap positive object) : Prop :=
  ∀ l, is_Some (τ' !! l) → is_Some (τ !! l) ∨ σ !! l = None.

(** What the recursive call is assumed to do, at depth [n]: on two dicts that
    are read in a part [τ1] of its store, it returns a dict that is read as
    their merge in a larger part, grown by new locations only. *)
Definition merges_at (n : nat)
    (rec : gmap positive object → positive → positive → ending) : Prop :=
  ∀ σ1 τ1 lb lo mb mo,
    τ1 ⊆ σ1 →
    reify n τ1 (VRef lb) = Some (JObj mb) →
    reify n τ1 (VRef lo) = Some (JObj mo) →
    ∃ σ2 r' τ2,
      rec σ1 lb lo = Done σ2 r'
      ∧ σ1 ⊆ σ2 ∧ τ1 ⊆ τ2 ∧ τ2 ⊆ σ2 ∧ grows_outside σ1 τ1 τ2
      ∧ reify n τ2 (VRef r') = Some (JObj (dict_merge mb mo)).

(** The state of the loop after the items [o]: the dict at [result] holds,
    under a key of [o], a value read as the merged value, and under any other
    key what [b] holds. *)
Definition loop_state (n : nat) (σ τ : gmap positive object) (result : positive)
    (b : gmap string value) (jb : gmap string json) (o : gmap string value)
    (acc : ending) : Prop :=
  ∃ σ1 res τ1,
    acc = Done σ1 result
    ∧ σ ⊆ σ1
    ∧ σ1 !! result = Some (ODict res)
    ∧ τ ⊆ τ1 ∧ τ1 ⊆ σ1 ∧ τ1 !! result = None ∧ grows_outside σ τ τ1
    ∧ ∀ k, match o !! k with
           | Some v => ∃ jv x, reify n τ v = Some jv ∧ res !! k = Some x
                        ∧ reify n τ1 x = Some (merged_value (jb !! k) jv)
           | None => res !! k = b !! k
           end.

(** A store with [sample_base] at 1 and [sample_override] at 3. *)
Definition sample_store : gmap positive object :=
  {[ 1%positive := ODict {[ "a" := VRef 2; "b" := VInt 2 ]};
     2%positive := ODict {[ "x" := VInt 1 ]};
     3%positive := ODict {[ "a" := VRef 4; "c" := VRef 5 ]};
     4%positive := ODict {[ "y" := VInt 3 ]};
     5%positive := OList [VInt 2] ]}.

(** Every reference a dict holds is to an object of the store, as it is in
    Python. *)
Definition no_dangling (σ : gmap positive object) (d : gmap string value)
    : Prop :=
  ∀ k l, d !! k = Some (VRef l) → is_Some (σ !! l).

End Heap.

(** * Properties *)

(** ** install.py: [deep_merge] *)

(** *** The loop, read off the definition *)

Lemma JObj_inj (a b : gmap string json) : JObj a = JObj b → a = b.
Proof. by intros [= ->]. Qed.

Lemma deep_merge_unfold (base override : gmap string json) :
  deep_merge base override = map_fold (merge_step merge_into) base override.
Proof. reflexivity. Qed.

Lemma merge_step_insert key value result :
  merge_step merge_into key value result
  = <[key := merged_value (result !! key) value]> result.
Proof.
  unfold merge_step, merged_value.
  destruct (result !! key) as [[]|]; try reflexivity.
  destruct value; reflexivity.
Qed.

(** Key by key: a key of [override] holds the merged value, every other key
    holds what [base] has. *)
Lemma lookup_deep_merge (base override : gmap string json) (k : string) :
  deep_merge base override !! k =
    match override !! k with
    | Some v => Some (merged_value (base !! k) v)
    | None => base !! k
    end.
Proof.
  rewrite deep_merge_unfold.
  apply (map_fold_weak_ind (λ r (m : gmap string json),
    r !! k = match m !! k with
             | Some v => Some (merged_value (base !! k) v)
             | None => base !! k
             end)).
  - by rewrite lookup_empty.
  - intros i x m r Hi IH. rewrite merge_step_insert.
    destruct (decide (i = k)) as [->|Hne].
    + rewrite !lookup_insert_eq. rewrite Hi in IH. by rewrite IH.
    + by rewrite !lookup_insert_ne.
Qed.

Lemma dom_deep_merge (base override : gmap string json) :
  dom (deep_merge base override) = dom base ∪ dom override.
Proof.
  apply set_eq. intros k.
  rewrite elem_of_union, !elem_of_dom, lookup_deep_merge.
  destruct (override !! k) as [v|] eqn:Hk.
  - split; [intros _; right|]; eauto.
  - split; [by left|]. intros [?|[? ?]]; [done|discriminate].
Qed.

(** Nothing to merge in: the loop does not run. *)
Lemma deep_merge_empty_r (A : gmap string json) : deep_merge A ∅ = A.
Proof. rewrite deep_merge_unfold. apply map_fold_empty. Qed.

(** Nothing to merge into: every key of the override is new and takes the
    override's value as it is. *)
Lemma deep_merge_empty_l (B : gmap string json) : deep_merge ∅ B = B.
Proof.
  apply map_eq. intros k. rewrite lookup_deep_merge, lookup_empty.
  by destruct (B !! k).
Qed.

(** The loop in the order of a list of items with distinct keys. *)
Lemma spec_merge_step_insert (result : gmap string json) (item : string * json) :
  spec_merge_step result item
  = <[item.1 := merged_value (result !! item.1) item.2]> result.
Proof.
  unfold spec_merge_step, merged_value.
  destruct (result !! item.1) as [[]|]; try reflexivity.
  destruct item.2; reflexivity.
Qed.

Lemma lookup_spec_merge (items : list (string * json)) :
  NoDup items.*1 →
  ∀ (base : gmap string json) (k : string),
    spec_merge base items !! k =
      match (list_to_map items : gmap string json) !! k with
      | Some v => Some (merged_value (base !! k) v)
      | None => base !! k
      end.
Proof.
  induction items as [|[i x] items IH]; intros Hnd base k.
  - cbn. by rewrite lookup_empty.
  - apply NoDup_cons in Hnd as [Hi Hnd]. cbn [spec_merge foldl].
    fold (spec_merge (spec_merge_step base (i, x)) items).
    rewrite IH by done. rewrite spec_merge_step_insert, list_to_map_cons.
    cbn [fst snd]. destruct (decide (i = k)) as [<-|Hne].
    + by rewrite (not_elem_of_list_to_map_1 items i Hi), !lookup_insert_eq.
    + by rewrite !lookup_insert_ne.
Qed.

(** Whatever the order of the items, the loop ends in the same map. *)
Lemma spec_merge_deep_merge (base : gmap string json)
    (items : list (string * json)) :
  NoDup items.*1 → spec_merge base items = deep_merge base (list_to_map items).
Proof.
  intros Hnd. apply map_eq. intros k.
  by rewrite lookup_spec_merge, lookup_deep_merge.
Qed.

(** *** The algorithm and its identities *)

(** Claim C4.  deep_merge(base, override) is the map obtained from a copy of
    base by going through the items of override, in whatever order they come,
    and storing under each key the recursive merge of the two values when the
    key is in the result and both values are dicts, and the override's value
    itself otherwise.  So every key of override holds that merge or that
    value, the other keys keep what base has, and a list in override replaces
    whatever base has under that key. *)
Theorem C4_deep_merge_algorithm (base override : gmap string json) :
  (∀ items, NoDup items.*1 → list_to_map items = override →
     deep_merge base override = spec_merge base items)
  ∧ deep_merge base override = spec_merge base (map_to_list override)
  ∧ (∀ k, override !! k = None → deep_merge base override !! k = base !! k)
  ∧ (∀ k b o, base !! k = Some (JObj b) → override !! k = Some (JObj o) →
       deep_merge base override !! k = Some (JObj (deep_merge b o)))
  ∧ (∀ k v, override !! k = Some v →
       is_dict v = false ∨ (∀ b, base !! k ≠ Some (JObj b)) →
       deep_merge base override !! k = Some v)
  ∧ (∀ k l, override !! k = Some (JArr l) →
       deep_merge base override !! k = Some (JArr l)).
Proof.
  split; [|split]; [| |repeat split].
  - intros items Hnd <-. by rewrite spec_merge_deep_merge.
  - rewrite spec_merge_deep_merge by apply NoDup_fst_map_to_list.
    by rewrite list_to_map_to_list.
  - intros k Hk. by rewrite lookup_deep_merge, Hk.
  - intros k b o Hb Ho. by rewrite lookup_deep_merge, Ho, Hb.
  - intros k v Hv Hcase. rewrite lookup_deep_merge, Hv. f_equal.
    unfold merged_value. destruct (base !! k) as [[]|] eqn:Hb; try done.
    destruct v; try done. destruct Hcase as [?|Hno]; [done|].
    by destruct (Hno d).
  - intros k l Hl. rewrite lookup_deep_merge, Hl.
    unfold merged_value. by destruct (base !! k) as [[]|].
Qed.

Lemma C4_witness :
  deep_merge sample_base sample_override
  = spec_merge sample_base
      [("c", JArr [JInt 2]); ("a", JObj {[ "y" := JInt 3 ]})]
  ∧ deep_merge sample_base sample_override !! "a"
    = Some (JObj (deep_merge {[ "x" := JInt 1 ]} {[ "y" := JInt 3 ]}))
  ∧ deep_merge sample_base sample_override !! "b" = Some (JInt 2)
  ∧ deep_merge sample_base sample_override !! "c" = Some (JArr [JInt 2]).
Proof.
  destruct (C4_deep_merge_algorithm sample_base sample_override)
    as (Hitems & _ & Hkeep & Hboth & _ & Hlist).
  split; [|split; [|split]].
  - apply Hitems; [|vm_compute; reflexivity].
    apply NoDup_cons. split; [by intros [=]%list_elem_of_singleton|].
    apply NoDup_singleton.
  - apply Hboth; vm_compute; reflexivity.
  - rewrite Hkeep; vm_compute; reflexivity.
  - apply Hlist. vm_compute. reflexivity.
Defined.

(** Claim C5.  The empty dict is a left and a right identity of deep_merge:
    deep_merge(A, {}) == A and deep_merge({}, B) == B. *)
Theorem C5_deep_merge_identity (A B : gmap string json) :
  deep_merge A ∅ = A ∧ deep_merge ∅ B = B.
Proof. split; [apply deep_merge_empty_r | apply deep_merge_empty_l]. Qed.

(** ** install.py, sync_models.py: the free-model filter *)

Section filter_facts.
Implicit Types (m : json) (d manual : gmap string json).
Implicit Types (results acc : gmap pykey json).
Implicit Types (models ms : list json).

Lemma bind_Ok {A B} (r : result A) (k : A → result B) (b : B) :
  bind r k = Ok b → ∃ a, r = Ok a ∧ k a = Ok b.
Proof. destruct r as [a|e]; simpl; [eauto | discriminate]. Qed.

(** A comprehension that finished kept the elements on which the predicate
    returned True. *)
Lemma elem_of_filter_by (p : json → result bool) models kept m :
  filter_by p models = Ok kept →
  m ∈ kept ↔ m ∈ models ∧ p m = Ok true.
Proof.
  revert kept. induction models as [|m0 models IH]; intros kept; simpl.
  - intros [= <-]. split; [by intros ?%elem_of_nil | by intros [?%elem_of_nil _]].
  - intros (b & Hb & (kept' & Hk & [= <-])%bind_Ok)%bind_Ok.
    specialize (IH _ Hk). destruct b.
    + rewrite !elem_of_cons, IH. split.
      * intros [->|[? ?]]; eauto.
      * intros [[->|?] ?]; eauto.
    + rewrite elem_of_cons, IH. split; [intros [? ?]; by split; [right|] |].
      intros [[->|?] Hp]; [congruence | done].
Qed.

Lemma filter_by_total (p : json → result bool) models :
  Forall (λ m, ∃ b, p m = Ok b) models → ∃ kept, filter_by p models = Ok kept.
Proof.
  induction 1 as [|m models [b Hb] _ [kept IH]]; simpl; [eauto|].
  rewrite Hb, IH. simpl. eauto.
Qed.

Lemma store_model_Ok acc m results :
  store_model acc m = Ok results →
  ∃ d mid k, m = JObj d ∧ d !! "id" = Some mid ∧ key_of mid = Some k
             ∧ results = <[k := dict_get d "name" mid]> acc.
Proof.
  destruct m as [| | | | | |d]; cbn; try discriminate.
  destruct (d !! "id") as [mid|] eqn:Hid; [|discriminate].
  destruct (key_of mid) as [k|] eqn:Hk; [|discriminate].
  intros [= <-]. by exists d, mid, k.
Qed.

(** After the first loop a key holds the name of a stored record whose id
    is that key, or what it held before when no stored record has such an
    id. *)
Lemma store_models_lookup ms acc results k :
  store_models acc ms = Ok results →
  (results !! k = acc !! k
     ∧ ∀ d mid, JObj d ∈ ms → d !! "id" = Some mid → key_of mid ≠ Some k)
  ∨ (∃ d mid, JObj d ∈ ms ∧ d !! "id" = Some mid ∧ key_of mid = Some k
          ∧ results !! k = Some (dict_get d "name" mid)).
Proof.
  revert acc. induction ms as [|m ms IH]; intros acc; simpl.
  - intros [= <-]. left. split; [done|]. by intros d mid ?%elem_of_nil.
  - intros (acc' & Hm & Hrest)%bind_Ok.
    apply store_model_Ok in Hm as (d & mid & k0 & -> & Hid & Hk0 & ->).
    destruct (IH _ Hrest) as [[Hk Hno]|(d' & mid' & Hin & Hid' & Hk' & Hk)].
    + destruct (decide (k0 = k)) as [->|Hne].
      * right. exists d, mid. rewrite Hk, lookup_insert_eq.
        split; [apply elem_of_cons; by left | done].
      * left. rewrite Hk, lookup_insert_ne by done. split; [done|].
        intros d' mid' [[= ->]|Hin]%elem_of_cons Hid'; [congruence | by eapply Hno].
    + right. exists d', mid'. split; [apply elem_of_cons; by right | done].
Qed.

Lemma store_models_ids ms acc results m :
  store_models acc ms = Ok results → m ∈ ms →
  ∃ d mid k, m = JObj d ∧ d !! "id" = Some mid ∧ key_of mid = Some k.
Proof.
  revert acc. induction ms as [|m0 ms IH]; intros acc; simpl.
  - by intros _ ?%elem_of_nil.
  - intros (acc' & Hm & Hrest)%bind_Ok [->|Hin]%elem_of_cons; [|by eapply IH].
    apply store_model_Ok in Hm as (d & mid & k & -> & Hid & Hk & _).
    by exists d, mid, k.
Qed.

Lemma store_models_total ms acc :
  Forall (λ m, ∃ d mid k, m = JObj d ∧ d !! "id" = Some mid ∧ key_of mid = Some k)
    ms →
  ∃ results, store_models acc ms = Ok results.
Proof.
  intros Hall. revert acc.
  induction Hall as [|m ms (d & mid & k & -> & Hid & Hk) _ IH]; intros acc; simpl;
    [eauto|].
  rewrite Hid, Hk. simpl. apply IH.
Qed.

(** The second loop: the manual map laid over the results. *)
Lemma lookup_manual_loop manual (results : gmap pykey json) k :
  map_fold (λ mid name r, <[KStr mid := name]> r) results manual !! k
  = match manual_name manual k with
    | Some name => Some name
    | None => results !! k
    end.
Proof.
  apply (map_fold_weak_ind (λ (r : gmap pykey json) (mm : gmap string json),
    r !! k = match manual_name mm k with
             | Some name => Some name
             | None => results !! k
             end)).
  - destruct k; cbn; by rewrite ?lookup_empty.
  - intros i x mm r Hi IH. destruct (decide (KStr i = k)) as [<-|Hne].
    + cbn. by rewrite !lookup_insert_eq.
    + rewrite lookup_insert_ne by done. rewrite IH.
      destruct k as [| | |s]; cbn; try done.
      rewrite lookup_insert_ne by congruence. done.
Qed.

(** The shape of a successful call. *)
Lemma collect_free_models_with_Ok manual models results :
  collect_free_models_with manual models = Ok results →
  ∃ by_suffix by_pricing stored,
    filter_by is_free_by_suffix models = Ok by_suffix
    ∧ filter_by is_free_by_pricing models = Ok by_pricing
    ∧ store_models ∅ (by_suffix ++ by_pricing) = Ok stored
    ∧ ∀ k, results !! k
           = match manual_name manual k with
             | Some name => Some name
             | None => stored !! k
             end.
Proof.
  unfold collect_free_models_with.
  intros (bs & Hs & (bp & Hp & (st & Hst & [= <-])%bind_Ok)%bind_Ok)%bind_Ok.
  exists bs, bp, st. repeat split; try done.
  intros k. apply lookup_manual_loop.
Qed.

(** The filter returns on every list of dicts with an id that can be a key,
    a string or not, and a pricing that is a dict or absent. *)
Lemma collect_free_models_with_returns manual models :
  Forall storable_record models →
  ∃ results, collect_free_models_with manual models = Ok results.
Proof.
  intros Hwf. unfold collect_free_models_with.
  destruct (filter_by_total is_free_by_suffix models) as [bs Hbs].
  { eapply Forall_impl; [exact Hwf|]. intros m (d & mid & k & -> & _ & _ & _).
    simpl. destruct (py_str _); eauto. }
  destruct (filter_by_total is_free_by_pricing models) as [bp Hbp].
  { eapply Forall_impl; [exact Hwf|]. intros m (d & mid & k & -> & _ & _ & Hp).
    simpl. unfold dict_get at 1. destruct Hp as [->|[p ->]]; simpl; eauto. }
  rewrite Hbs, Hbp. simpl.
  destruct (store_models_total (bs ++ bp) ∅) as [st Hst].
  { rewrite Forall_forall in Hwf. apply Forall_forall. intros m Hm.
    destruct (Hwf m) as (d & mid & k & -> & Hid & Hk & _); [|by exists d, mid, k].
    apply elem_of_app in Hm as [Hm|Hm].
    - by apply (elem_of_filter_by _ _ _ _ Hbs) in Hm as [? _].
    - by apply (elem_of_filter_by _ _ _ _ Hbp) in Hm as [? _]. }
  rewrite Hst. simpl. eauto.
Qed.

Lemma collect_free_models_with_total manual models :
  Forall well_formed_record models →
  ∃ results, collect_free_models_with manual models = Ok results.
Proof.
  intros Hwf. apply collect_free_models_with_returns.
  eapply Forall_impl; [exact Hwf|].
  intros m (d & mid & -> & Hid & Hp). by exists d, (JStr mid), (KStr mid).
Qed.
End filter_facts.

(** A concrete record, given its dict and its id, is well formed. *)
Ltac well_formed_record :=
  split; [reflexivity|];
  split; [vm_compute; reflexivity|];
  first [ left; vm_compute; reflexivity
        | right; eexists; vm_compute; reflexivity ].




(** Claim C7.  Whatever the catalogue, every id of the manual map is a key of
    the filtered map, and the value under it is the manual name: the manual
    map wins over any name the catalogue has for that id.  This holds of
    every result the filter returns, and the filter returns one on every list
    of dicts with an id that can be a key and a pricing that is a dict or
    absent. *)
Theorem C7_manual_models_win
    (manual : gmap string json) (models : list json)
    (mid : string) (name : json) :
  manual !! mid = Some name →
  (∀ results, collect_free_models_with manual models = Ok results →
              results !! KStr mid = Some name)
  ∧ (Forall storable_record models →
     ∃ results, collect_free_models_with manual models = Ok results
                ∧ results !! KStr mid = Some name).
Proof.
  intros Hman.
  assert (∀ results, collect_free_models_with manual models = Ok results →
                     results !! KStr mid = Some name) as Hwin.
  { intros results (bs & bp & st & _ & _ & _ & Hres)%collect_free_models_with_Ok.
    rewrite Hres. cbn. by rewrite Hman. }
  split; [exact Hwin|]. intros Hall.
  destruct (collect_free_models_with_returns manual models Hall) as [results Hc].
  exists results. split; [exact Hc | by apply Hwin].
Qed.

Lemma C7_witness :
  result_lookup (collect_free_models [JObj potato_record]) "giga-potato"
  = Some (JStr "Giga Potato (free)").
Proof.
  destruct (collect_free_models_with_total MANUAL_MODELS [JObj potato_record])
    as [results Hc].
  { repeat constructor. exists potato_record, "giga-potato". well_formed_record. }
  unfold collect_free_models. rewrite Hc.
  assert (MANUAL_MODELS !! "giga-potato" = Some (JStr "Giga Potato (free)"))
    as Hman by (vm_compute; reflexivity).
  exact (proj1 (C7_manual_models_win MANUAL_MODELS [JObj potato_record]
                  "giga-potato" (JStr "Giga Potato (free)") Hman) results Hc).
Defined.

(** *** Ids that are not strings *)

(** A selected record whose id is a number is stored under that number, with
    the number as its name when it has no name; a float equal to the number
    is the same key, and the later record gives the name. *)
Lemma number_id_is_stored :
  result_at (collect_free_models [JObj number_id_record]) (KNum 5)
  = Some (JInt 5)
  ∧ result_at (collect_free_models [JObj number_id_record; JObj float_id_record])
      (KNum 5)
    = Some (JStr "Five")
  ∧ result_at (collect_free_models [JObj number_id_record]) (KStr "giga-potato")
    = Some (JStr "Giga Potato (free)").
Proof. repeat split; vm_compute; reflexivity. Qed.

(** [str_keys] gives the dict back key by key when all keys are strs, and
    nothing when one is not. *)
Lemma str_keys_spec (results : gmap pykey json) :
  match str_keys results with
  | Some m => (∀ s, m !! s = results !! KStr s)
              ∧ ∀ k, is_Some (results !! k) → ∃ s, k = KStr s
  | None => ∃ k, is_Some (results !! k) ∧ ∀ s, k ≠ KStr s
  end.
Proof.
  unfold str_keys.
  apply (map_fold_weak_ind (λ (acc : option (gmap string json))
                              (mm : gmap pykey json),
    match acc with
    | Some m => (∀ s, m !! s = mm !! KStr s)
                ∧ ∀ k, is_Some (mm !! k) → ∃ s, k = KStr s
    | None => ∃ k, is_Some (mm !! k) ∧ ∀ s, k ≠ KStr s
    end)).
  - split; [intros s; by rewrite !lookup_empty|].
    intros k [v Hv]. by rewrite lookup_empty in Hv.
  - intros k v mm acc Hk IH. destruct acc as [m|].
    + destruct IH as [Hm Hall]. destruct k as [| | |s0]; cbn.
      * exists KNone. rewrite lookup_insert_eq. split; [eauto | done].
      * exists (KNum z). rewrite lookup_insert_eq. split; [eauto | done].
      * exists (KFloat repr). rewrite lookup_insert_eq. split; [eauto | done].
      * split.
        -- intros s. destruct (decide (s0 = s)) as [->|Hne].
           ++ by rewrite !lookup_insert_eq.
           ++ rewrite !lookup_insert_ne by congruence. apply Hm.
        -- intros k. destruct (decide (KStr s0 = k)) as [<-|Hne]; [eauto|].
           rewrite lookup_insert_ne by done. apply Hall.
    + destruct IH as (k' & Hk' & Hno).
      assert (∃ k'', is_Some (<[k := v]> mm !! k'') ∧ ∀ s, k'' ≠ KStr s) as Hex.
      { exists k'. split; [|done]. destruct (decide (k = k')) as [->|Hne].
        - rewrite lookup_insert_eq. eauto.
        - by rewrite lookup_insert_ne. }
      by destruct k.
Qed.

(** The map an online run resolves is the filtered map, which then has str
    keys only. *)
Lemma resolve_models_online (r : run) (raw : list json)
    (id_to_name : gmap string json) :
  offline r = false → fetched r = Some raw →
  resolve_models r = Ok id_to_name →
  ∃ results, collect_free_models raw = Ok results
             ∧ (∀ s, id_to_name !! s = results !! KStr s)
             ∧ ∀ k, is_Some (results !! k) → ∃ s, k = KStr s.
Proof.
  intros Hoff Hf. unfold resolve_models. rewrite Hoff, Hf.
  intros (results & Hc & Hkeys)%bind_Ok. exists results. split; [done|].
  pose proof (str_keys_spec results) as Hspec.
  destruct (str_keys results) as [m|]; [|discriminate].
  injection Hkeys as <-. exact Hspec.
Qed.

(** An online run dies of the TypeError of [sorted] when a key of the
    filtered map is not a str. *)
Lemma main_non_str_key (r : run) (raw : list json) (results : gmap pykey json)
    (k : pykey) :
  offline r = false → fetched r = Some raw →
  collect_free_models raw = Ok results →
  is_Some (results !! k) → (∀ s, k ≠ KStr s) →
  main r = Crashed TypeError.
Proof.
  intros Hoff Hf Hc Hk Hno. unfold main, resolve_models.
  rewrite Hoff, Hf, Hc. cbn [bind].
  pose proof (str_keys_spec results) as Hspec.
  destruct (str_keys results) as [m|]; [|done].
  destruct Hspec as [_ Hall]. destruct (Hall k Hk) as [s ->]. by destruct (Hno s).
Qed.

Lemma is_zero_text_spec (v : json) : is_zero_text v = true ↔ zero_text v.
Proof.
  unfold is_zero_text, zero_text. destruct (py_str v) as [s|].
  - rewrite bool_decide_eq_true, !elem_of_cons, elem_of_nil. split.
    + intros [?|[?|[]]]; eauto.
    + intros (? & [= <-] & [?|?]); eauto.
  - split; [discriminate | by intros (? & ? & _)].
Qed.

Lemma not_zero_text_empty : is_zero_text (JStr "") = false.
Proof. reflexivity. Qed.

(** Claim C8.  The zero-pricing rule holds of a record exactly when the record
    has a pricing mapping with a prompt and a completion field whose texts,
    trimmed, are both 0 or 0.0.  A record without pricing, or whose pricing
    lacks prompt or completion, does not satisfy the rule. *)
Theorem C8_zero_pricing_rule (d : gmap string json) :
  (is_free_by_pricing (JObj d) = Ok true ↔
     ∃ p prompt completion,
       d !! "pricing" = Some (JObj p)
       ∧ p !! "prompt" = Some prompt ∧ p !! "completion" = Some completion
       ∧ zero_text prompt ∧ zero_text completion)
  ∧ (d !! "pricing" = None → is_free_by_pricing (JObj d) = Ok false)
  ∧ (∀ p, d !! "pricing" = Some (JObj p) →
       p !! "prompt" = None ∨ p !! "completion" = None →
       is_free_by_pricing (JObj d) = Ok false).
Proof.
  split; [|split].
  - simpl. unfold dict_get at 1. destruct (d !! "pricing") as [[| | | | | |p]|] eqn:Hp;
      simpl; try (split; [discriminate | intros (? & ? & ? & [=] & _)]).
    unfold dict_get. split.
    + intros [= [H1 H2]%andb_true_iff].
      destruct (p !! "prompt") as [pr|] eqn:Hpr; simpl in H1;
        [|by rewrite not_zero_text_empty in H1].
      destruct (p !! "completion") as [co|] eqn:Hco; simpl in H2;
        [|by rewrite not_zero_text_empty in H2].
      exists p, pr, co. by rewrite <- !is_zero_text_spec.
    + intros (p' & pr & co & [= <-] & -> & -> & H1 & H2). simpl.
      apply is_zero_text_spec in H1, H2. by rewrite H1, H2.
  - intros Hp. simpl. unfold dict_get. by rewrite Hp.
  - intros p Hp Hmiss. simpl. unfold dict_get. rewrite Hp. simpl.
    destruct Hmiss as [->| ->]; simpl; [done|].
    by rewrite andb_false_r.
Qed.

Lemma C8_witness :
  is_free_by_pricing (JObj zero_priced_record) = Ok true
  ∧ is_free_by_pricing (JObj empty_name_record) = Ok false.
Proof.
  split.
  - apply (proj1 (C8_zero_pricing_rule zero_priced_record)).
    exists {[ "prompt" := JInt 0; "completion" := JStr " 0.0 " ]}, (JInt 0), (JStr " 0.0 ").
    split; [vm_compute; reflexivity|].
    split; [vm_compute; reflexivity|].
    split; [vm_compute; reflexivity|].
    split.
    + exists "0". split; [reflexivity | left; vm_compute; reflexivity].
    + exists " 0.0 ". split; [reflexivity | right; vm_compute; reflexivity].
  - apply (proj1 (proj2 (C8_zero_pricing_rule empty_name_record))).
    vm_compute. reflexivity.
Defined.

(** ** install.py: the document written *)

Section install_facts.
Implicit Types (D P E R entries : gmap string json) (doc loaded : json).

Lemma lookup_with_schema_eq D :
  with_schema D !! "$schema" = Some (default SCHEMA_URL (D !! "$schema")).
Proof.
  unfold with_schema. destruct (D !! "$schema") as [v|] eqn:Hs.
  - exact Hs.
  - apply lookup_insert_eq.
Qed.

Lemma lookup_with_schema_ne D k :
  k ≠ "$schema" → with_schema D !! k = D !! k.
Proof.
  intros Hk. unfold with_schema. destruct (D !! "$schema") as [v|] eqn:Hs.
  - reflexivity.
  - apply lookup_insert_ne. congruence.
Qed.

Lemma ensure_schema_Ok loaded existing :
  ensure_schema loaded = Ok existing →
  (∃ D, loaded = JObj D ∧ existing = JObj (with_schema D))
  ∨ (existing = loaded ∧ is_dict loaded = false).
Proof.
  destruct loaded as [| | | |s|l|D]; try discriminate.
  - unfold ensure_schema. destruct (contains _ _); [|discriminate].
    intros [= <-]. by right.
  - unfold ensure_schema. destruct (existsb _ _); [|discriminate].
    intros [= <-]. by right.
  - unfold ensure_schema, with_schema. intros H. left. exists D.
    split; [reflexivity|].
    destruct (D !! "$schema"); by injection H as <-.
Qed.

Lemma get_or_empty_Ok x key v :
  get_or_empty x key = Ok v → ∃ d, x = JObj d ∧ v = dict_get d key (JObj ∅).
Proof. destruct x; try discriminate. intros [= <-]. eauto. Qed.

Lemma deep_merge_any_Ok base override v :
  deep_merge_any base override = Ok v →
  (∃ b, base = JObj b ∧ v = JObj (deep_merge b override))
  ∨ (is_dict base = false ∧ dict_is_empty override = true).
Proof.
  destruct base as [| | | | |l|b]; try discriminate.
  - unfold deep_merge_any. destruct (dict_is_empty _); [|discriminate].
    intros _. by right.
  - intros [= <-]. left. eauto.
Qed.

Lemma dict_is_empty_insert k v (m : gmap string json) :
  dict_is_empty (<[k := v]> m) = false.
Proof.
  unfold dict_is_empty. destruct (map_to_list _) eqn:Hl; [|reflexivity].
  apply map_to_list_empty_iff in Hl. by apply insert_non_empty in Hl.
Qed.

(** A call of [update_config] that returns went through dicts all the way. *)
Lemma update_config_Ok loaded entries doc :
  update_config loaded entries = Ok doc →
  ∃ D P E,
    loaded = JObj D
    ∧ dict_get D "provider" (JObj ∅) = JObj P
    ∧ dict_get P PROVIDER_KEY (JObj ∅) = JObj E
    ∧ doc = JObj (deep_merge (with_schema D)
        (provider_override (JObj (deep_merge E (provider_defaults entries))))).
Proof.
  unfold update_config.
  intros (existing & Hex & (providers & Hps & (ep & Hep
            & (up & Hup & Hdoc)%bind_Ok)%bind_Ok)%bind_Ok)%bind_Ok.
  apply get_or_empty_Ok in Hps as (D' & -> & ->).
  apply get_or_empty_Ok in Hep as (P & HP & ->).
  apply ensure_schema_Ok in Hex as [(D & -> & [= ->])|[<- [=]]].
  apply deep_merge_any_Ok in Hdoc as [(b & [= <-] & ->)|[[=] _]].
  apply deep_merge_any_Ok in Hup as [(E & HE & ->)|[_ Hemp]].
  - exists D, P, E. split; [reflexivity|]. split; [|by split].
    rewrite <- HP. unfold dict_get. by rewrite lookup_with_schema_ne.
  - unfold provider_defaults in Hemp. by rewrite dict_is_empty_insert in Hemp.
Qed.

Lemma update_config_total D P E entries :
  dict_get D "provider" (JObj ∅) = JObj P →
  dict_get P PROVIDER_KEY (JObj ∅) = JObj E →
  update_config (JObj D) entries
  = Ok (JObj (deep_merge (with_schema D)
        (provider_override (JObj (deep_merge E (provider_defaults entries)))))).
Proof.
  intros HP HE. unfold update_config.
  assert (ensure_schema (JObj D) = Ok (JObj (with_schema D))) as ->.
  { unfold ensure_schema, with_schema. by destruct (D !! "$schema"). }
  unfold bind at 1. unfold get_or_empty at 1.
  assert (dict_get (with_schema D) "provider" (JObj ∅) = JObj P) as ->.
  { rewrite <- HP. unfold dict_get. by rewrite lookup_with_schema_ne. }
  unfold bind at 1. unfold get_or_empty. rewrite HE.
  reflexivity.
Qed.

(** What [main] wrote is what [update_config] made of the loaded value. *)
Lemma main_Written (r : run) doc :
  main r = Written doc →
  ∃ id_to_name loaded,
    resolve_models r = Ok id_to_name
    ∧ load_existing (on_disk r) = Some loaded
    ∧ update_config loaded (build_model_entries id_to_name) = Ok doc.
Proof.
  unfold main. destruct (resolve_models r) as [id_to_name|]; [|discriminate].
  destruct (dry_run r); [discriminate|].
  destruct (load_existing (on_disk r)) as [loaded|]; [|discriminate].
  destruct (update_config loaded _) as [merged|] eqn:Hup; [|discriminate].
  destruct (writable r); [|discriminate].
  intros [= <-]. eauto.
Qed.

(** The keys of the written document, one by one. *)
Lemma lookup_written_provider D P U :
  dict_get D "provider" (JObj ∅) = JObj P →
  deep_merge (with_schema D) (provider_override U) !! "provider"
  = Some (JObj (deep_merge P {[ PROVIDER_KEY := U ]})).
Proof.
  intros HP. rewrite lookup_deep_merge. unfold provider_override.
  rewrite lookup_singleton_eq, lookup_with_schema_ne by done.
  f_equal. revert HP. unfold dict_get, merged_value.
  destruct (D !! "provider") as [[]|]; cbn [default]; try discriminate.
  - by intros [= ->].
  - intros [= <-]. by rewrite deep_merge_empty_l.
Qed.

Lemma lookup_written_other D U k :
  k ≠ "provider" →
  deep_merge (with_schema D) (provider_override U) !! k = with_schema D !! k.
Proof.
  intros Hk. rewrite lookup_deep_merge. unfold provider_override.
  by rewrite lookup_singleton_ne.
Qed.
End install_facts.

(** A run that is not a dry run, resolves its models, finds a dict whose
    provider block and provider entry are dicts when present, and can write,
    writes. *)
Lemma main_writes (r : run) (id_to_name D P E : gmap string json) :
  dry_run r = false → writable r = true →
  resolve_models r = Ok id_to_name →
  load_existing (on_disk r) = Some (JObj D) →
  dict_get D "provider" (JObj ∅) = JObj P →
  dict_get P PROVIDER_KEY (JObj ∅) = JObj E →
  main r = Written (JObj (deep_merge (with_schema D)
    (provider_override
       (JObj (deep_merge E (provider_defaults (build_model_entries id_to_name))))))).
Proof.
  intros Hdry Hw Hres Hload HP HE. unfold main.
  rewrite Hres, Hdry, Hload, (update_config_total D P E _ HP HE), Hw.
  reflexivity.
Qed.

(** Claim C2, amended.  The document an install run writes agrees with the
    loaded document D outside provider.kilo-gateway-free, but for the
    "$schema" key: every top-level key other than "provider" and "$schema" is
    there with the value D has, or absent as in D; under "provider" every key
    other than kilo-gateway-free is there with the value D has, or absent as
    in D; and "$schema" has the value D has under it, or
    https://opencode.ai/config.json when D has none. *)
Theorem C2_install_keeps_other_keys
    (r : run) (D : gmap string json) (doc : json) :
  load_existing (on_disk r) = Some (JObj D) →
  main r = Written doc →
  ∃ R P P',
    doc = JObj R
    ∧ dict_get D "provider" (JObj ∅) = JObj P
    ∧ R !! "provider" = Some (JObj P')
    ∧ (∀ k, k ≠ "provider" → k ≠ "$schema" → R !! k = D !! k)
    ∧ R !! "$schema" = Some (default SCHEMA_URL (D !! "$schema"))
    ∧ (∀ k, k ≠ PROVIDER_KEY → P' !! k = P !! k).
Proof.
  intros Hload (m & loaded & _ & Hload' & Hup)%main_Written.
  rewrite Hload in Hload'. injection Hload' as <-.
  apply update_config_Ok in Hup as (D' & P & E & [= <-] & HP & HE & ->).
  eexists _, P, _. split; [reflexivity|]. split; [exact HP|].
  split; [by apply lookup_written_provider|]. split; [|split].
  - intros k Hk Hs. by rewrite lookup_written_other, lookup_with_schema_ne.
  - rewrite lookup_written_other by done. apply lookup_with_schema_eq.
  - intros k Hk. rewrite lookup_deep_merge.
    by rewrite lookup_singleton_ne.
Qed.

(** The claim as it stands fails on the "$schema" key: the document of this
    run has none, it is outside provider.kilo-gateway-free, and the document
    written has one. *)
Lemma C2_counterexample :
  load_existing (on_disk offline_run) = Some (JObj old_config)
  ∧ lookup_path ["$schema"] (JObj old_config) = None
  ∧ written_lookup (main offline_run) ["$schema"]
    = Some (JStr "https://opencode.ai/config.json").
Proof. repeat split; vm_compute; reflexivity. Qed.

(** Claim C10.  The document an install run writes has a top-level "$schema"
    key: the value the loaded document has under it, or
    https://opencode.ai/config.json when the loaded document has none. *)
Theorem C10_schema_key (r : run) (loaded doc : json) :
  load_existing (on_disk r) = Some loaded →
  main r = Written doc →
  ∃ D R,
    loaded = JObj D ∧ doc = JObj R
    ∧ R !! "$schema" = Some (default SCHEMA_URL (D !! "$schema")).
Proof.
  intros Hload (m & loaded' & _ & Hload' & Hup)%main_Written.
  rewrite Hload in Hload'. injection Hload' as <-.
  apply update_config_Ok in Hup as (D & P & E & -> & HP & HE & ->).
  eexists D, _. split; [reflexivity|]. split; [reflexivity|].
  rewrite lookup_written_other by done. apply lookup_with_schema_eq.
Qed.

Lemma offline_run_writes :
  main offline_run = Written (JObj (deep_merge (with_schema old_config)
    (provider_override (JObj (deep_merge old_entry
       (provider_defaults (build_model_entries FALLBACK_MODELS))))))).
Proof.
  apply (main_writes offline_run FALLBACK_MODELS old_config old_providers old_entry);
    try reflexivity; vm_compute; reflexivity.
Qed.

Lemma offline_run_loads :
  load_existing (on_disk offline_run) = Some (JObj old_config).
Proof. reflexivity. Qed.

Lemma C2_witness :
  written_lookup (main offline_run) ["other"] = Some (JObj {[ "x" := JInt 1 ]})
  ∧ written_lookup (main offline_run) ["provider"; "other-provider"]
    = Some (JObj {[ "npm" := JStr "x" ]}).
Proof.
  destruct (C2_install_keeps_other_keys offline_run old_config _
              offline_run_loads offline_run_writes)
    as (R & P & P' & HR0 & HP & HR & Hother & _ & Hprov).
  apply JObj_inj in HR0. subst R.
  rewrite offline_run_writes. unfold written_lookup, lookup_path.
  split.
  - rewrite Hother by done. vm_compute. reflexivity.
  - rewrite HR. cbn [mbind option_bind]. rewrite Hprov by done.
    assert (JObj old_providers = JObj P) as HP'
      by (rewrite <- HP; vm_compute; reflexivity).
    apply JObj_inj in HP'. subst P. vm_compute. reflexivity.
Defined.

Lemma C10_witness :
  written_lookup (main offline_run) ["$schema"]
  = Some (JStr "https://opencode.ai/config.json").
Proof.
  destruct (C10_schema_key offline_run (JObj old_config) _
              offline_run_loads offline_run_writes)
    as (D & R & HD & HR0 & Hschema).
  apply JObj_inj in HD, HR0. subst D R.
  rewrite offline_run_writes. unfold written_lookup, lookup_path.
  rewrite Hschema. vm_compute. reflexivity.
Defined.

Lemma lookup_path_cons (d : gmap string json) (k : string) (rest : list string)
    (x : json) :
  d !! k = Some x → lookup_path (k :: rest) (JObj d) = lookup_path rest x.
Proof. intros Hk. cbn [lookup_path]. by rewrite Hk. Qed.

Lemma lookup_provider_defaults_models (entries : gmap string json) :
  provider_defaults entries !! "models" = Some (JObj entries).
Proof.
  unfold provider_defaults.
  rewrite !lookup_insert_ne by done. apply lookup_singleton_eq.
Qed.

(** Whatever the fresh model map, a model id of the old entry is a model id
    of the entry that is written. *)
Lemma install_keeps_old_model_ids
    (r : run) (D P E ms : gmap string json) (doc : json) (s : string) :
  load_existing (on_disk r) = Some (JObj D) →
  main r = Written doc →
  D !! "provider" = Some (JObj P) →
  P !! PROVIDER_KEY = Some (JObj E) →
  E !! "models" = Some (JObj ms) →
  s ∈ dom ms →
  ∃ ms', lookup_path ["provider"; PROVIDER_KEY; "models"] doc = Some (JObj ms')
         ∧ s ∈ dom ms'.
Proof.
  intros Hload (m & loaded & _ & Hload' & Hup)%main_Written HP HE Hms Hs.
  rewrite Hload in Hload'. injection Hload' as <-.
  apply update_config_Ok in Hup as (D' & P' & E' & HD & HP' & HE' & ->).
  apply JObj_inj in HD. subst D'.
  unfold dict_get in HP'. rewrite HP in HP'. apply JObj_inj in HP'. subst P'.
  unfold dict_get in HE'. rewrite HE in HE'. apply JObj_inj in HE'. subst E'.
  set (entries := build_model_entries m).
  exists (deep_merge ms (deep_merge ms entries)). split.
  - set (U := deep_merge E (provider_defaults entries)).
    rewrite (lookup_path_cons _ _ _ (JObj (deep_merge P {[ PROVIDER_KEY := JObj U ]})))
      by (apply lookup_written_provider; unfold dict_get; by rewrite HP).
    rewrite (lookup_path_cons _ _ _ (JObj (deep_merge E U)))
      by (by rewrite lookup_deep_merge, lookup_singleton_eq, HE).
    rewrite (lookup_path_cons _ _ _ (JObj (deep_merge ms (deep_merge ms entries))));
      [reflexivity|].
    unfold U.
    by rewrite !lookup_deep_merge, lookup_provider_defaults_models, Hms.
  - rewrite dom_deep_merge. apply elem_of_union. by left.
Qed.

(** Claim C1, on the code.  A run over a document whose provider entry lists
    the model "stale", with a catalogue that has "a:free" only, writes a
    provider entry whose models still has "stale", which the entries built
    from the fresh model map do not have: the old list is merged with the new
    one, key by key, not replaced. *)
Theorem C1_stale_model_survives :
  written_lookup (main online_run)
    ["provider"; "kilo-gateway-free"; "models"; "stale"]
  = Some (JObj {[ "name" := JStr "Stale" ]})
  ∧ written_lookup (main online_run)
      ["provider"; "kilo-gateway-free"; "models"; "a:free"]
    = Some (JObj {[ "name" := JStr "A" ]})
  ∧ (build_model_entries <$> match resolve_models online_run with
                             | Ok m => Some m
                             | Raise _ => None
                             end)
    ≫= (.!! "stale") = None.
Proof. repeat split; vm_compute; reflexivity. Qed.

(** ** uninstall.py, remove_kilo_anonymous.py: the document written *)

Lemma dict_is_empty_empty : dict_is_empty ∅ = true.
Proof. unfold dict_is_empty. by rewrite map_to_list_empty. Qed.

Lemma get_or_empty_Some (d : gmap string json) (k : string) (v : json) :
  d !! k = Some v → get_or_empty (JObj d) k = Ok v.
Proof. intros H. unfold get_or_empty, dict_get. by rewrite H. Qed.

(** Removing the only provider removes the provider block. *)
Lemma remove_provider_sole
    (key : string) (config : gmap string json) (entry : json) (confirm : string) :
  config !! "provider" = Some (JObj {[ key := entry ]}) →
  confirmed confirm →
  remove_provider key (Loaded (JObj config)) confirm true
  = Written (JObj (delete "provider" config)).
Proof.
  intros Hcfg Hyes. unfold remove_provider.
  rewrite (get_or_empty_Some _ _ _ Hcfg). unfold key_in.
  rewrite bool_decide_eq_true_2
    by (rewrite dom_singleton_L; by apply elem_of_singleton).
  unfold confirmed in Hyes. rewrite Hyes. cbn [String.eqb negb].
  rewrite delete_singleton_eq, dict_is_empty_empty.
  reflexivity.
Qed.

(** Removing one provider of several keeps the block with the others. *)
Lemma remove_provider_others
    (key : string) (config ps : gmap string json) (confirm : string) :
  config !! "provider" = Some (JObj ps) →
  key ∈ dom ps → delete key ps ≠ ∅ →
  confirmed confirm →
  remove_provider key (Loaded (JObj config)) confirm true
  = Written (JObj (<["provider" := JObj (delete key ps)]> config)).
Proof.
  intros Hcfg Hin Hne Hyes. unfold remove_provider.
  rewrite (get_or_empty_Some _ _ _ Hcfg). unfold key_in.
  rewrite bool_decide_eq_true_2 by done.
  unfold confirmed in Hyes. rewrite Hyes. cbn [String.eqb negb].
  unfold dict_is_empty. destruct (map_to_list (delete key ps)) eqn:Hl.
  - by apply map_to_list_empty_iff in Hl.
  - reflexivity.
Qed.

(** An answer that is not a yes leaves the file alone. *)
Lemma remove_provider_declined
    (key : string) (config : json) (confirm : string) (can_write : bool)
    (doc : json) :
  ¬ confirmed confirm →
  remove_provider key (Loaded config) confirm can_write ≠ Written doc.
Proof.
  intros Hno. unfold remove_provider.
  destruct (get_or_empty config "provider") as [providers|]; [|discriminate].
  destruct (key_in key providers) as [[]|]; try discriminate.
  destruct (String.eqb (lower (strip confirm)) "y") eqn:Heq; [|discriminate].
  by apply String.eqb_eq in Heq.
Qed.

(** Claim C9.  When the target key is the only entry under "provider", a
    confirmed removal writes the document without its "provider" key, in
    uninstall.py for kilo-gateway-free and in remove_kilo_anonymous.py for
    kilo-anonymous. *)
Theorem C9_last_provider_removed
    (config : gmap string json) (entry : json) (confirm : string) :
  confirmed confirm →
  (config !! "provider" = Some (JObj {[ "kilo-gateway-free" := entry ]}) →
   uninstall_main (Loaded (JObj config)) confirm true
   = Written (JObj (delete "provider" config)))
  ∧ (config !! "provider" = Some (JObj {[ "kilo-anonymous" := entry ]}) →
     remove_kilo_anonymous_main (Loaded (JObj config)) confirm true
     = Written (JObj (delete "provider" config)))
  ∧ delete "provider" config !! "provider" = None.
Proof.
  intros Hyes. split; [|split].
  - intros Hcfg. by apply (remove_provider_sole _ _ entry).
  - intros Hcfg. by apply (remove_provider_sole _ _ entry).
  - apply lookup_delete_eq.
Qed.

Lemma C9_witness :
  uninstall_main (Loaded (JObj sole_provider_config)) " Y " true
  = Written (JObj (delete "provider" sole_provider_config))
  ∧ written_lookup
      (uninstall_main (Loaded (JObj sole_provider_config)) " Y " true)
      ["theme"] = Some (JStr "dark").
Proof.
  assert (confirmed " Y ") as Hyes by (vm_compute; reflexivity).
  assert (sole_provider_config !! "provider"
          = Some (JObj {[ "kilo-gateway-free" := JObj old_entry ]})) as Hcfg
    by (vm_compute; reflexivity).
  pose proof (proj1 (C9_last_provider_removed sole_provider_config
                       (JObj old_entry) " Y " Hyes) Hcfg) as Hrun.
  split; [exact Hrun|].
  rewrite Hrun. vm_compute. reflexivity.
Defined.

(** ** Further properties of [deep_merge] and of the install run *)

(** *** Laws of [deep_merge] *)

Lemma jsize_lookup (d : gmap string json) (k : string) (v : json) :
  d !! k = Some v → (jsize v < jsize (JObj d))%nat.
Proof.
  cbn [jsize]. intros Hk. apply Nat.lt_succ_r. revert k v Hk.
  apply (map_fold_weak_ind (λ (n : nat) (m : gmap string json),
           ∀ k v, m !! k = Some v → (jsize v ≤ n)%nat)).
  - intros k v. by rewrite lookup_empty.
  - intros i x m n Hi IH k v. destruct (decide (i = k)) as [->|Hne].
    + rewrite lookup_insert_eq. intros [= ->]. lia.
    + rewrite lookup_insert_ne by done. intros Hk. specialize (IH k v Hk). lia.
Qed.

(** Induction on a dict, with the property at hand for the dicts it holds. *)
Lemma dict_ind (P : gmap string json → Prop) :
  (∀ d, (∀ k d', d !! k = Some (JObj d') → P d') → P d) → ∀ d, P d.
Proof.
  intros Hstep d. remember (jsize (JObj d)) as n eqn:Hn. revert d Hn.
  induction n as [n IH] using lt_wf_ind. intros d ->.
  apply Hstep. intros k d' Hk. eapply IH; [|reflexivity].
  by apply (jsize_lookup d k).
Qed.

(** Merging a dict into itself changes nothing. *)
Lemma deep_merge_idemp (A : gmap string json) : deep_merge A A = A.
Proof.
  induction A as [A IH] using dict_ind.
  apply map_eq. intros k. rewrite lookup_deep_merge.
  destruct (A !! k) as [v|] eqn:Hk; [|done].
  unfold merged_value. destruct v; try done. by rewrite (IH k d).
Qed.

(** Merging the same override a second time changes nothing. *)
Lemma deep_merge_absorb_r (A B : gmap string json) :
  deep_merge (deep_merge A B) B = deep_merge A B.
Proof.
  revert A. induction B as [B IH] using dict_ind. intros A.
  apply map_eq. intros k. rewrite !lookup_deep_merge.
  destruct (B !! k) as [v|] eqn:Hk; [|done].
  f_equal. unfold merged_value at 1 2.
  destruct v as [| | | | | |o]; try by destruct (A !! k) as [[]|].
  destruct (A !! k) as [[| | | | | |a]|]; cbn; rewrite ?deep_merge_idemp; try done.
  by rewrite (IH k o).
Qed.

(** Merging the result of a merge back into its base changes nothing. *)
Lemma deep_merge_absorb_l (A B : gmap string json) :
  deep_merge A (deep_merge A B) = deep_merge A B.
Proof.
  revert B. induction A as [A IH] using dict_ind. intros B.
  apply map_eq. intros k. rewrite !lookup_deep_merge.
  destruct (B !! k) as [v|] eqn:HB.
  - f_equal. destruct (A !! k) as [[| | | | | |a]|] eqn:HA; try done;
      try by (unfold merged_value; destruct v).
    destruct v as [| | | | | |o]; try done. cbn. by rewrite (IH k a).
  - destruct (A !! k) as [[| | | | | |a]|] eqn:HA; try done.
    cbn. by rewrite deep_merge_idemp.
Qed.

(** *** [deep_merge] along a path *)

Lemma lookup_path_app (p q : list string) (v : json) :
  lookup_path (p ++ q) v = lookup_path p v ≫= lookup_path q.
Proof.
  revert v. induction p as [|k p IH]; intros v; [done|].
  cbn [app lookup_path]. destruct v; try done.
  destruct (_ !! k) as [x|]; [apply IH | done].
Qed.

Lemma merged_value_scalar (old : option json) (v : json) :
  is_dict v = false → merged_value old v = v.
Proof. destruct v; try done; by destruct old as [[]|]. Qed.

Lemma merged_value_dict (old : option json) (o : gmap string json) :
  merged_value old (JObj o)
  = JObj (deep_merge (match old with Some (JObj b) => b | _ => ∅ end) o).
Proof.
  destruct old as [[]|]; cbn [merged_value]; by rewrite ?deep_merge_empty_l.
Qed.

Lemma lookup_path_scalar (p : list string) (x v : json) :
  is_dict x = false → lookup_path p x = Some v → p = [] ∧ v = x.
Proof. destruct p; [by intros _ [= <-] | by destruct x]. Qed.

(** A value of the override that is not a dict is in the result at the same
    path, whatever the base has there. *)
Lemma deep_merge_leaf_wins (p : list string) (base override : gmap string json)
    (v : json) :
  p ≠ [] → is_dict v = false →
  lookup_path p (JObj override) = Some v →
  lookup_path p (JObj (deep_merge base override)) = Some v.
Proof.
  intros Hp Hv. revert base override Hp.
  induction p as [|k rest IH]; intros base override Hp; [done|].
  cbn [lookup_path]. rewrite lookup_deep_merge.
  destruct (override !! k) as [x|]; [|done]. cbn [mbind option_bind].
  destruct x as [| | | | | |o];
    try (intros [-> ->]%lookup_path_scalar; [|done];
         by rewrite merged_value_scalar).
  rewrite merged_value_dict. destruct rest as [|k' rest'].
  - by intros [= <-].
  - by apply IH.
Qed.

Lemma not_overridden_lookup (p : list string) (x : json) :
  overridden p x = false → lookup_path p x = None.
Proof.
  revert x. induction p as [|k rest IH]; intros x; [done|].
  cbn [overridden lookup_path]. destruct x; try done.
  destruct (_ !! k); [apply IH | done].
Qed.

(** Where the override has nothing on a path, the result has what the base
    has there. *)
Lemma deep_merge_keeps_unmentioned (p : list string)
    (base override : gmap string json) :
  overridden p (JObj override) = false →
  lookup_path p (JObj (deep_merge base override)) = lookup_path p (JObj base).
Proof.
  revert base override. induction p as [|k rest IH]; intros base override; [done|].
  cbn [overridden lookup_path]. rewrite lookup_deep_merge.
  destruct (override !! k) as [x|]; [|done].
  destruct rest as [|k' rest']; [done|].
  destruct x as [| | | | | |o]; try done.
  intros Hno. rewrite merged_value_dict.
  destruct (base !! k) as [[| | | | | |b]|]; cbn [mbind option_bind];
    try (by apply IH);
    rewrite deep_merge_empty_l; by apply not_overridden_lookup.
Qed.

(** The keys of the result are the keys of the base and the keys of the
    override, and no others. *)
Theorem deep_merge_keys (base override : gmap string json) :
  dom (deep_merge base override) = dom base ∪ dom override.
Proof. apply dom_deep_merge. Qed.

(** Merging a dict into itself changes nothing, and merging the same
    override a second time, or merging the result back into the base,
    changes nothing either. *)
Theorem deep_merge_laws (A B : gmap string json) :
  deep_merge A A = A
  ∧ deep_merge (deep_merge A B) B = deep_merge A B
  ∧ deep_merge A (deep_merge A B) = deep_merge A B.
Proof.
  split; [apply deep_merge_idemp|].
  split; [apply deep_merge_absorb_r | apply deep_merge_absorb_l].
Qed.

(** A value of the override that is not a dict is in the result at the same
    path, at any depth and whatever the base has there. *)
Theorem deep_merge_override_leaves
    (p : list string) (base override : gmap string json) (v : json) :
  p ≠ [] → is_dict v = false →
  lookup_path p (JObj override) = Some v →
  lookup_path p (JObj (deep_merge base override)) = Some v.
Proof. apply deep_merge_leaf_wins. Qed.

Lemma deep_merge_override_leaves_witness :
  lookup_path ["a"; "y"] (JObj (deep_merge sample_base sample_override))
  = Some (JInt 3).
Proof.
  apply (deep_merge_override_leaves ["a"; "y"] sample_base sample_override (JInt 3));
    [done | reflexivity | vm_compute; reflexivity].
Defined.

(** Where the override has nothing on a path, neither a value at the path
    nor a value that is not a dict above it, the result has at that path
    what the base has, at any depth. *)
Theorem deep_merge_base_kept
    (p : list string) (base override : gmap string json) :
  overridden p (JObj override) = false →
  lookup_path p (JObj (deep_merge base override)) = lookup_path p (JObj base).
Proof. apply deep_merge_keeps_unmentioned. Qed.

Lemma deep_merge_base_kept_witness :
  lookup_path ["a"; "x"] (JObj (deep_merge sample_base sample_override))
  = Some (JInt 1).
Proof.
  rewrite (deep_merge_base_kept ["a"; "x"] sample_base sample_override)
    by (vm_compute; reflexivity).
  vm_compute. reflexivity.
Defined.

(** *** What a run writes, and when *)

Section install_more.
Implicit Types (D P E R entries : gmap string json) (doc loaded : json).

(** The entry under the provider key after the second merge. *)
Lemma lookup_merged_entry P E U :
  dict_get P PROVIDER_KEY (JObj ∅) = JObj E →
  deep_merge P {[ PROVIDER_KEY := JObj (deep_merge E U) ]} !! PROVIDER_KEY
  = Some (JObj (deep_merge E U)).
Proof.
  intros HE. rewrite lookup_deep_merge, lookup_singleton_eq. f_equal.
  revert HE. unfold dict_get, merged_value.
  destruct (P !! PROVIDER_KEY) as [[]|]; cbn; try discriminate; try done.
  intros [= ->]. by rewrite deep_merge_absorb_l.
Qed.

Lemma main_Written_shape (r : run) doc :
  main r = Written doc →
  ∃ id_to_name loaded D P E,
    resolve_models r = Ok id_to_name
    ∧ load_existing (on_disk r) = Some loaded
    ∧ config_shape loaded D P E
    ∧ doc = JObj (deep_merge (with_schema D)
        (provider_override (JObj (deep_merge E
           (provider_defaults (build_model_entries id_to_name)))))).
Proof.
  intros (m & loaded & Hres & Hload & Hup)%main_Written.
  apply update_config_Ok in Hup as (D & P & E & -> & HP & HE & ->).
  exists m, (JObj D), D, P, E. by repeat split.
Qed.

Lemma lookup_path_written_entry D P E U :
  dict_get D "provider" (JObj ∅) = JObj P →
  dict_get P PROVIDER_KEY (JObj ∅) = JObj E →
  lookup_path ["provider"; PROVIDER_KEY]
    (JObj (deep_merge (with_schema D) (provider_override (JObj (deep_merge E U)))))
  = Some (JObj (deep_merge E U)).
Proof.
  intros HP HE.
  rewrite (lookup_path_cons _ _ _ _ (lookup_written_provider D P _ HP)).
  rewrite (lookup_path_cons _ _ _ _ (lookup_merged_entry P E U HE)).
  reflexivity.
Qed.

Lemma with_schema_id D : is_Some (D !! "$schema") → with_schema D = D.
Proof. intros [v Hv]. unfold with_schema. by rewrite Hv. Qed.

Lemma with_schema_written D U :
  with_schema (deep_merge (with_schema D) (provider_override U))
  = deep_merge (with_schema D) (provider_override U).
Proof.
  apply with_schema_id.
  rewrite lookup_written_other, lookup_with_schema_eq by done. eauto.
Qed.

Lemma fresh_config_eq entries :
  deep_merge (with_schema ∅)
    (provider_override (JObj (deep_merge ∅ (provider_defaults entries))))
  = fresh_config entries.
Proof.
  rewrite deep_merge_empty_l. apply map_eq. intros k.
  rewrite lookup_deep_merge. unfold provider_override, fresh_config, with_schema.
  rewrite lookup_empty.
  destruct (decide (k = "provider")) as [->|Hk].
  - rewrite lookup_singleton_eq. cbn [merged_value].
    rewrite lookup_insert_ne by done. rewrite lookup_empty.
    rewrite lookup_insert_ne by done. cbn [merged_value].
    symmetry. apply lookup_insert_eq.
  - rewrite lookup_singleton_ne by done.
    destruct (decide (k = "$schema")) as [->|Hs].
    + by rewrite !lookup_insert_eq.
    + rewrite !lookup_insert_ne by done.
      by rewrite lookup_empty, lookup_singleton_ne.
Qed.
End install_more.

(** A run that starts from no file, or from a file that is not JSON, writes
    the schema key and this provider with its defaults and the resolved
    models, and nothing else: a file that does not parse is replaced. *)
Theorem install_from_nothing (r : run) (id_to_name : gmap string json) :
  on_disk r = NoFile ∨ on_disk r = InvalidJSON →
  dry_run r = false → writable r = true →
  resolve_models r = Ok id_to_name →
  main r = Written (JObj (fresh_config (build_model_entries id_to_name))).
Proof.
  intros Hdisk Hdry Hw Hres.
  rewrite <- fresh_config_eq.
  apply (main_writes r id_to_name ∅ ∅ ∅); try done.
  by destruct Hdisk as [->| ->].
Qed.

Lemma install_from_nothing_witness :
  main corrupt_run
  = Written (JObj (fresh_config (build_model_entries FALLBACK_MODELS))).
Proof.
  apply (install_from_nothing corrupt_run FALLBACK_MODELS);
    [by right | reflexivity | reflexivity | reflexivity].
Defined.

(** The entry a run writes under provider.kilo-gateway-free is the old entry
    merged with the defaults: the second merge of line 196 adds nothing to
    it. *)
Theorem install_writes_merged_entry
    (r : run) (doc : json) (id_to_name D : gmap string json) :
  main r = Written doc →
  resolve_models r = Ok id_to_name →
  load_existing (on_disk r) = Some (JObj D) →
  ∃ P E,
    dict_get D "provider" (JObj ∅) = JObj P
    ∧ dict_get P PROVIDER_KEY (JObj ∅) = JObj E
    ∧ lookup_path ["provider"; PROVIDER_KEY] doc
      = Some (JObj (deep_merge E
                      (provider_defaults (build_model_entries id_to_name)))).
Proof.
  intros (m & loaded & D' & P & E & Hres & Hload & (-> & HP & HE) & ->)%main_Written_shape.
  rewrite Hres, Hload. intros [= <-] [= <-].
  exists P, E. do 2 (split; [done|]). by apply (lookup_path_written_entry D' P).
Qed.

(** Running the installer again on the file it wrote, with the same models,
    writes the same file. *)
Theorem install_idempotent (r : run) (doc : json) :
  main r = Written doc → main (run_on r doc) = Written doc.
Proof.
  intros Hrun.
  assert (dry_run r = false ∧ writable r = true) as [Hdry Hw].
  { revert Hrun. unfold main. destruct (resolve_models r); [|discriminate].
    destruct (dry_run r); [discriminate|].
    destruct (load_existing _); [|discriminate].
    destruct (update_config _ _); [|discriminate].
    by destruct (writable r). }
  apply main_Written_shape in Hrun
    as (m & loaded & D & P & E & Hres & Hload & (-> & HP & HE) & ->).
  set (U := provider_defaults (build_model_entries m)).
  set (X := JObj (deep_merge E U)).
  rewrite (main_writes (run_on r _) m
             (deep_merge (with_schema D) (provider_override X))
             (deep_merge P {[ PROVIDER_KEY := X ]})
             (deep_merge E U)); try done.
  - fold U. rewrite deep_merge_absorb_r. fold X.
    by rewrite with_schema_written, deep_merge_absorb_r.
  - unfold dict_get. by rewrite (lookup_written_provider D P X HP).
  - unfold dict_get, X. by rewrite (lookup_merged_entry P E U HE).
Qed.

Lemma custom_run_writes :
  main custom_run = Written (JObj (deep_merge (with_schema custom_config)
    (provider_override (JObj (deep_merge custom_entry
       (provider_defaults (build_model_entries FALLBACK_MODELS))))))).
Proof.
  apply (main_writes custom_run FALLBACK_MODELS custom_config
           {[ PROVIDER_KEY := JObj custom_entry ]} custom_entry);
    try reflexivity; vm_compute; reflexivity.
Qed.

Lemma custom_run_loads :
  load_existing (on_disk custom_run) = Some (JObj custom_config).
Proof. reflexivity. Qed.

Lemma custom_run_resolves : resolve_models custom_run = Ok FALLBACK_MODELS.
Proof. reflexivity. Qed.

Lemma install_writes_merged_entry_witness :
  written_lookup (main custom_run) ["provider"; PROVIDER_KEY]
  = Some (JObj (deep_merge custom_entry
       (provider_defaults (build_model_entries FALLBACK_MODELS)))).
Proof.
  destruct (install_writes_merged_entry custom_run _ _ _ custom_run_writes
              custom_run_resolves custom_run_loads)
    as (P & E & HP & HE & Hdoc).
  rewrite custom_run_writes. unfold written_lookup. rewrite Hdoc.
  assert (JObj {[ PROVIDER_KEY := JObj custom_entry ]} = JObj P) as HP'
    by (rewrite <- HP; vm_compute; reflexivity).
  apply JObj_inj in HP'. subst P.
  assert (JObj custom_entry = JObj E) as HE'
    by (rewrite <- HE; vm_compute; reflexivity).
  apply JObj_inj in HE'. by subst E.
Defined.

Lemma install_idempotent_witness :
  ∃ doc, main custom_run = Written doc ∧ main (run_on custom_run doc) = Written doc.
Proof.
  eexists. split; [exact custom_run_writes|].
  exact (install_idempotent custom_run _ custom_run_writes).
Defined.

Lemma lookup_path_old_entry D P E (p : list string) :
  config_shape (JObj D) D P E → p ≠ [] →
  lookup_path ("provider" :: PROVIDER_KEY :: p) (JObj D) = lookup_path p (JObj E).
Proof.
  intros (_ & HP & HE) Hp. destruct p as [|k p]; [done|].
  revert HP HE. unfold dict_get. cbn [lookup_path].
  destruct (D !! "provider") as [x|]; cbn [default from_option id mbind option_bind].
  - intros ->. destruct (P !! PROVIDER_KEY) as [y|];
      cbn [default from_option id mbind option_bind].
    + by intros ->.
    + intros [= <-]. by rewrite lookup_empty.
  - intros [= <-]. rewrite lookup_empty. cbn [default from_option id].
    intros [= <-]. by rewrite lookup_empty.
Qed.

(** Every value of the defaults that is not a dict is in the written entry
    at its path: what the user had set there (an apiKey, a baseURL, a
    User-Agent, the name of a listed model) is overwritten. *)
Theorem install_defaults_win
    (r : run) (doc : json) (id_to_name : gmap string json)
    (p : list string) (v : json) :
  main r = Written doc →
  resolve_models r = Ok id_to_name →
  p ≠ [] → is_dict v = false →
  lookup_path p (JObj (provider_defaults (build_model_entries id_to_name)))
  = Some v →
  lookup_path ("provider" :: PROVIDER_KEY :: p) doc = Some v.
Proof.
  intros (m & loaded & D & P & E & Hres & Hload & (-> & HP & HE) & ->)%main_Written_shape.
  rewrite Hres. intros [= <-] Hp Hv Hdef.
  change ("provider" :: PROVIDER_KEY :: p) with (["provider"; PROVIDER_KEY] ++ p)%list.
  rewrite lookup_path_app, (lookup_path_written_entry D P E _ HP HE).
  cbn [mbind option_bind]. by apply deep_merge_leaf_wins.
Qed.

(** Where the defaults have nothing on a path, the written entry has what
    the old entry has there: settings of the user's own survive, at any
    depth. *)
Theorem install_keeps_entry_settings
    (r : run) (doc : json) (id_to_name D : gmap string json) (p : list string) :
  main r = Written doc →
  resolve_models r = Ok id_to_name →
  load_existing (on_disk r) = Some (JObj D) →
  overridden p (JObj (provider_defaults (build_model_entries id_to_name))) = false →
  lookup_path ("provider" :: PROVIDER_KEY :: p) doc
  = lookup_path ("provider" :: PROVIDER_KEY :: p) (JObj D).
Proof.
  intros (m & loaded & D' & P & E & Hres & Hload & Hshape & ->)%main_Written_shape.
  pose proof Hshape as (-> & HP & HE).
  rewrite Hres, Hload. intros [= <-] [= <-] Hno.
  assert (p ≠ []) as Hp by (by destruct p).
  rewrite (lookup_path_old_entry D' P E p Hshape Hp).
  change ("provider" :: PROVIDER_KEY :: p) with (["provider"; PROVIDER_KEY] ++ p)%list.
  rewrite lookup_path_app, (lookup_path_written_entry D' P E _ HP HE).
  cbn [mbind option_bind]. by apply deep_merge_keeps_unmentioned.
Qed.

Lemma install_defaults_win_witness :
  written_lookup (main custom_run) ["provider"; PROVIDER_KEY; "options"; "apiKey"]
  = Some (JStr "anonymous").
Proof.
  rewrite custom_run_writes. unfold written_lookup.
  apply (install_defaults_win custom_run _ FALLBACK_MODELS
           ["options"; "apiKey"] (JStr "anonymous") custom_run_writes);
    [reflexivity | done | reflexivity | vm_compute; reflexivity].
Defined.

Lemma install_keeps_entry_settings_witness :
  written_lookup (main custom_run) ["provider"; PROVIDER_KEY; "options"; "timeout"]
  = Some (JInt 30).
Proof.
  rewrite custom_run_writes. unfold written_lookup.
  rewrite (install_keeps_entry_settings custom_run _ FALLBACK_MODELS custom_config
             ["options"; "timeout"] custom_run_writes);
    [vm_compute; reflexivity | reflexivity | reflexivity | vm_compute; reflexivity].
Defined.

(** The models block a run writes is the old models block, when the old
    entry has one that is a dict, merged with the resolved entries; without
    such a block it is the resolved entries and nothing else. *)
Theorem install_models_block
    (r : run) (doc : json) (id_to_name D : gmap string json) :
  main r = Written doc →
  resolve_models r = Ok id_to_name →
  load_existing (on_disk r) = Some (JObj D) →
  lookup_path ["provider"; PROVIDER_KEY; "models"] doc
  = Some (JObj (deep_merge
                  (dict_at ["provider"; PROVIDER_KEY; "models"] (JObj D))
                  (build_model_entries id_to_name))).
Proof.
  intros (m & loaded & D' & P & E & Hres & Hload & Hshape & ->)%main_Written_shape.
  pose proof Hshape as (-> & HP & HE).
  rewrite Hres, Hload. intros [= <-] [= <-]. unfold dict_at.
  rewrite (lookup_path_old_entry D' P E ["models"] Hshape) by done.
  change ["provider"; PROVIDER_KEY; "models"]
    with (["provider"; PROVIDER_KEY] ++ ["models"])%list.
  rewrite lookup_path_app, (lookup_path_written_entry D' P E _ HP HE).
  cbn [mbind option_bind lookup_path].
  rewrite lookup_deep_merge, lookup_provider_defaults_models, merged_value_dict.
  by destruct (E !! "models") as [[]|].
Qed.

Lemma install_models_block_witness :
  written_lookup (main custom_run) ["provider"; PROVIDER_KEY; "models"]
  = Some (JObj (build_model_entries FALLBACK_MODELS)).
Proof.
  rewrite custom_run_writes. unfold written_lookup.
  rewrite (install_models_block custom_run _ _ _ custom_run_writes
             custom_run_resolves custom_run_loads).
  assert (dict_at ["provider"; PROVIDER_KEY; "models"] (JObj custom_config) = ∅)
    as -> by (vm_compute; reflexivity).
  by rewrite deep_merge_empty_l.
Defined.

(** A run that gets as far as the update either finds a dict whose provider
    block and entry for this provider are dicts where present, and writes; or
    it dies of an exception, and nothing is written. *)
Theorem install_writes_or_crashes
    (r : run) (id_to_name : gmap string json) (loaded : json) :
  dry_run r = false → writable r = true →
  resolve_models r = Ok id_to_name →
  load_existing (on_disk r) = Some loaded →
  ((∃ D P E, config_shape loaded D P E) ∧ ∃ doc, main r = Written doc)
  ∨ ((¬ ∃ D P E, config_shape loaded D P E) ∧ ∃ e, main r = Crashed e).
Proof.
  intros Hdry Hw Hres Hload.
  destruct (main r) as [|doc|code|e] eqn:Hrun.
  - exfalso. revert Hrun. unfold main. rewrite Hres, Hdry, Hload, Hw.
    by destruct (update_config _ _).
  - left. split; [|eauto].
    apply main_Written_shape in Hrun
      as (m & loaded' & D & P & E & _ & Hload' & Hshape & _).
    rewrite Hload in Hload'. injection Hload' as <-. eauto.
  - exfalso. revert Hrun. unfold main. rewrite Hres, Hdry, Hload, Hw.
    by destruct (update_config _ _).
  - right. split; [|eauto]. intros (D & P & E & -> & HP & HE).
    by rewrite (main_writes r id_to_name D P E) in Hrun.
Qed.

Lemma install_writes_or_crashes_witness :
  (∃ doc, main custom_run = Written doc)
  ∧ ∃ e, main (run_on custom_run (JObj {[ "provider" := JNull ]})) = Crashed e.
Proof.
  split.
  - destruct (install_writes_or_crashes custom_run FALLBACK_MODELS
                (JObj custom_config) eq_refl eq_refl eq_refl eq_refl)
      as [[_ H]|[Hno _]]; [exact H|].
    destruct Hno. exists custom_config, {[ PROVIDER_KEY := JObj custom_entry ]},
      custom_entry. repeat split; vm_compute; reflexivity.
  - destruct (install_writes_or_crashes
                (run_on custom_run (JObj {[ "provider" := JNull ]}))
                FALLBACK_MODELS (JObj {[ "provider" := JNull ]})
                eq_refl eq_refl eq_refl eq_refl)
      as [[(D & P & E & HD & HP & _) _]|[_ H]]; [|exact H].
    apply JObj_inj in HD. subst D. exfalso. revert HP.
    unfold dict_get. rewrite lookup_singleton_eq. discriminate.
Defined.

(** *** Install, then uninstall *)

Lemma delete_merged_entry (P : gmap string json) (X : json) :
  P !! PROVIDER_KEY = None →
  delete PROVIDER_KEY (deep_merge P {[ PROVIDER_KEY := X ]}) = P.
Proof.
  intros HP. apply map_eq. intros k.
  destruct (decide (k = PROVIDER_KEY)) as [->|Hk].
  - by rewrite lookup_delete_eq.
  - rewrite lookup_delete_ne, lookup_deep_merge by done.
    by rewrite lookup_singleton_ne.
Qed.

Lemma dict_is_empty_true (d : gmap string json) : dict_is_empty d = true → d = ∅.
Proof.
  unfold dict_is_empty. destruct (map_to_list d) eqn:Hl; [|done].
  intros _. by apply map_to_list_empty_iff.
Qed.

(** Uninstalling what an install wrote over a document that did not have
    this provider gives the document back, with the schema key the install
    added if it had none, and without its provider block if that was empty. *)
Theorem install_then_uninstall
    (r : run) (doc : json) (D P : gmap string json) (confirm : string) :
  main r = Written doc →
  load_existing (on_disk r) = Some (JObj D) →
  dict_get D "provider" (JObj ∅) = JObj P →
  P !! PROVIDER_KEY = None →
  confirmed confirm →
  uninstall_main (Loaded doc) confirm true
  = Written (JObj (if dict_is_empty P then delete "provider" (with_schema D)
                   else with_schema D)).
Proof.
  intros (m & loaded & D' & P' & E & Hres & Hload & (-> & HP & HE) & ->)%main_Written_shape.
  rewrite Hload. intros [= <-]. rewrite HP. intros [= <-] Hkey Hyes.
  set (X := JObj (deep_merge E (provider_defaults (build_model_entries m)))).
  pose proof (lookup_written_provider D' P' X HP) as Hprov.
  unfold uninstall_main, remove_provider.
  rewrite (get_or_empty_Some _ _ _ Hprov). unfold key_in.
  rewrite bool_decide_eq_true_2.
  2:{ apply elem_of_dom. rewrite lookup_deep_merge.
      fold PROVIDER_KEY. rewrite lookup_singleton_eq. eauto. }
  unfold confirmed in Hyes. rewrite Hyes. cbn [String.eqb negb].
  fold PROVIDER_KEY. rewrite (delete_merged_entry P' X Hkey).
  do 2 f_equal. destruct (dict_is_empty P') eqn:Hemp.
  - apply map_eq. intros k. destruct (decide (k = "provider")) as [->|Hk].
    + by rewrite !lookup_delete_eq.
    + rewrite !lookup_delete_ne by done. by apply lookup_written_other.
  - apply map_eq. intros k. destruct (decide (k = "provider")) as [->|Hk].
    + rewrite lookup_insert_eq, lookup_with_schema_ne by done.
      revert HP. unfold dict_get. destruct (D' !! "provider") as [x|];
        cbn [default from_option id].
      * by intros ->.
      * intros [= <-]. rewrite dict_is_empty_empty in Hemp. discriminate Hemp.
    + rewrite lookup_insert_ne by done. by apply lookup_written_other.
Qed.

Lemma fresh_run_writes :
  main (run_on custom_run (JObj sample_base))
  = Written (JObj (deep_merge (with_schema sample_base)
      (provider_override (JObj (deep_merge ∅
         (provider_defaults (build_model_entries FALLBACK_MODELS))))))).
Proof.
  apply (main_writes (run_on custom_run (JObj sample_base))
           FALLBACK_MODELS sample_base ∅ ∅);
    try reflexivity; vm_compute; reflexivity.
Qed.

Lemma install_then_uninstall_witness :
  uninstall_main
    (Loaded (JObj (deep_merge (with_schema sample_base)
       (provider_override (JObj (deep_merge ∅
          (provider_defaults (build_model_entries FALLBACK_MODELS))))))))
    "y" true
  = Written (JObj (delete "provider" (with_schema sample_base))).
Proof.
  assert (dict_get sample_base "provider" (JObj ∅) = JObj ∅) as HP
    by (vm_compute; reflexivity).
  assert (confirmed "y") as Hyes by (vm_compute; reflexivity).
  rewrite (install_then_uninstall (run_on custom_run (JObj sample_base))
             _ sample_base ∅ "y" fresh_run_writes eq_refl HP (lookup_empty _) Hyes).
  by rewrite dict_is_empty_empty.
Defined.

(** ** Further properties of the filter *)

Section filter_more.
Implicit Types (m : json) (d manual : gmap string json).
Implicit Types (results acc : gmap pykey json).
Implicit Types (models ms : list json).

Lemma is_free_by_suffix_raises m e :
  is_free_by_suffix m = Raise e → e = AttributeError ∧ is_dict m = false.
Proof.
  destruct m; cbn; try (by intros [= <-]).
  by destruct (py_str _).
Qed.

Lemma is_free_by_pricing_raises m :
  bad_pricing m ↔ is_free_by_pricing m = Raise AttributeError.
Proof.
  destruct m as [| | | | | |d]; cbn; try done.
  unfold dict_get. split.
  - intros (v & -> & Hv). by destruct v.
  - destruct (d !! "pricing") as [v|]; cbn; [|done].
    destruct v; try done; eauto.
Qed.

Lemma is_free_by_pricing_raises_only m e :
  is_free_by_pricing m = Raise e → e = AttributeError.
Proof.
  destruct m as [| | | | | |d]; cbn; try (by intros [= <-]).
  destruct (dict_get d "pricing" (JObj ∅)); by intros [= <-].
Qed.

Lemma not_bad_pricing m :
  ¬ bad_pricing m →
  (∃ b, is_free_by_suffix m = Ok b) ∧ ∃ b, is_free_by_pricing m = Ok b.
Proof.
  intros Hgood. split.
  - destruct (is_free_by_suffix m) as [b|e] eqn:Hs; [eauto|].
    apply is_free_by_suffix_raises in Hs as [_ Hm]. destruct Hgood.
    by destruct m.
  - destruct (is_free_by_pricing m) as [b|e] eqn:Hp; [eauto|].
    pose proof (is_free_by_pricing_raises_only _ _ Hp) as ->.
    by apply is_free_by_pricing_raises in Hp.
Qed.

(** A comprehension whose predicate raises nothing but [e], and raises on
    one element, raises [e]. *)
Lemma filter_by_raises (p : json → result bool) (e : exn) models m :
  (∀ m' e', p m' = Raise e' → e' = e) →
  m ∈ models → p m = Raise e → filter_by p models = Raise e.
Proof.
  intros Honly Hin Hm. induction models as [|m0 models IH];
    [by apply elem_of_nil in Hin|].
  cbn. destruct (p m0) as [b|e'] eqn:Hm0; cbn.
  - apply elem_of_cons in Hin as [->|Hin]; [congruence|].
    by rewrite (IH Hin).
  - by rewrite (Honly _ _ Hm0).
Qed.

Lemma filter_by_outcome (p : json → result bool) (e : exn) models :
  (∀ m' e', p m' = Raise e' → e' = e) →
  (∃ kept, filter_by p models = Ok kept) ∨ filter_by p models = Raise e.
Proof.
  intros Honly. induction models as [|m0 models IH]; cbn; [eauto|].
  destruct (p m0) as [b|e'] eqn:Hm0; cbn; [|right; by rewrite (Honly _ _ Hm0)].
  destruct IH as [[kept ->]| ->]; cbn; eauto.
Qed.

(** A comprehension that finished went over elements on which the predicate
    returned. *)
Lemma filter_by_Ok_all (p : json → result bool) models kept m :
  filter_by p models = Ok kept → m ∈ models → ∃ b, p m = Ok b.
Proof.
  revert kept. induction models as [|m0 models IH]; intros kept; cbn.
  - by intros _ ?%elem_of_nil.
  - intros (b & Hb & (kept' & Hk & _)%bind_Ok)%bind_Ok [->|Hin]%elem_of_cons;
      [eauto | by eapply IH].
Qed.

Lemma filter_by_none (p : json → result bool) models :
  Forall (λ m, p m = Ok false) models → filter_by p models = Ok [].
Proof.
  induction 1 as [|m ms Hm _ IH]; [done|]. cbn. by rewrite Hm, IH.
Qed.

Lemma collect_free_models_with_bad_pricing manual models m :
  m ∈ models → bad_pricing m →
  collect_free_models_with manual models = Raise AttributeError.
Proof.
  intros Hin Hbad. unfold collect_free_models_with.
  destruct (filter_by_outcome is_free_by_suffix AttributeError models)
    as [[bs ->]| ->]; [| |done].
  { intros m' e' He. by apply is_free_by_suffix_raises in He as [-> _]. }
  cbn. rewrite (filter_by_raises is_free_by_pricing AttributeError models m);
    [done | apply is_free_by_pricing_raises_only | done |].
  by apply is_free_by_pricing_raises.
Qed.
End filter_more.

(** A record that is not a dict, or whose pricing is there and is not a dict
    (a null, say), makes the whole collection raise AttributeError, whatever
    the other records are; an online install run then dies of it before it
    reads the config. *)
Theorem collect_raises_on_bad_pricing
    (manual : gmap string json) (models : list json) (m : json) :
  m ∈ models → bad_pricing m →
  collect_free_models_with manual models = Raise AttributeError
  ∧ ∀ r, offline r = false → fetched r = Some models →
         main r = Crashed AttributeError.
Proof.
  intros Hin Hbad. split; [by apply (collect_free_models_with_bad_pricing _ _ m)|].
  intros r Hoff Hf. unfold main, resolve_models, collect_free_models.
  by rewrite Hoff, Hf,
    (collect_free_models_with_bad_pricing MANUAL_MODELS models m Hin Hbad).
Qed.

Lemma collect_raises_on_bad_pricing_witness :
  collect_free_models null_pricing_catalogue = Raise AttributeError.
Proof.
  apply (collect_raises_on_bad_pricing MANUAL_MODELS null_pricing_catalogue
           (JObj {[ "id" := JStr "b"; "pricing" := JNull ]})).
  - apply elem_of_cons. right. apply elem_of_cons. by left.
  - exists JNull. split; [vm_compute; reflexivity | reflexivity].
Defined.

(** The filter returns exactly on the lists whose records are all dicts with
    a pricing that is a dict or absent, and whose selected records all have
    an id that can be a key. *)
Theorem collect_returns_iff (manual : gmap string json) (models : list json) :
  (∃ results, collect_free_models_with manual models = Ok results)
  ↔ (∀ m, m ∈ models → ¬ bad_pricing m)
    ∧ (∀ m, m ∈ models → selected m → has_key m).
Proof.
  split.
  - intros [results (bs & bp & st & Hbs & Hbp & Hst & _)%collect_free_models_with_Ok].
    split.
    + intros m Hin Hbad%is_free_by_pricing_raises.
      destruct (filter_by_Ok_all _ _ _ m Hbp Hin) as [b Hb]. congruence.
    + intros m Hin Hsel. apply (store_models_ids _ _ _ m Hst).
      apply elem_of_app. destruct Hsel as [Hs|Hp]; [left|right].
      * by apply (elem_of_filter_by _ _ _ _ Hbs).
      * by apply (elem_of_filter_by _ _ _ _ Hbp).
  - intros [Hgood Hkeys]. unfold collect_free_models_with.
    destruct (filter_by_total is_free_by_suffix models) as [bs Hbs].
    { apply Forall_forall. intros m Hin. by apply not_bad_pricing, Hgood. }
    destruct (filter_by_total is_free_by_pricing models) as [bp Hbp].
    { apply Forall_forall. intros m Hin. by apply not_bad_pricing, Hgood. }
    rewrite Hbs, Hbp. cbn.
    destruct (store_models_total (bs ++ bp) ∅) as [st Hst].
    { apply Forall_forall. intros m [Hm|Hm]%elem_of_app.
      - apply (elem_of_filter_by _ _ _ _ Hbs) in Hm as [Hin Hs].
        apply Hkeys; [done | by left].
      - apply (elem_of_filter_by _ _ _ _ Hbp) in Hm as [Hin Hp].
        apply Hkeys; [done | by right]. }
    rewrite Hst. cbn. eauto.
Qed.

(** Nothing gets into the filtered map from nowhere: a key of the result
    with its value is an entry of the manual map, or the id of a selected
    record of the catalogue with that record's name, or with the id itself
    when the record has no name. *)
Theorem collect_no_junk
    (manual : gmap string json) (models : list json)
    (results : gmap pykey json) (k : pykey) (name : json) :
  collect_free_models_with manual models = Ok results →
  results !! k = Some name →
  manual_name manual k = Some name
  ∨ ∃ d mid, JObj d ∈ models ∧ selected (JObj d)
             ∧ d !! "id" = Some mid ∧ key_of mid = Some k
             ∧ name = dict_get d "name" mid.
Proof.
  intros (bs & bp & st & Hbs & Hbp & Hst & Hres)%collect_free_models_with_Ok.
  rewrite Hres. destruct (manual_name manual k) as [n|]; [by left|].
  intros Hk. right.
  destruct (store_models_lookup _ _ _ k Hst)
    as [[Hk' _]|(d & mid & Hin & Hid & Hkey & Hk')].
  { by rewrite Hk', lookup_empty in Hk. }
  exists d, mid. rewrite Hk' in Hk. injection Hk as <-.
  apply elem_of_app in Hin as [Hin|Hin].
  - apply (elem_of_filter_by _ _ _ _ Hbs) in Hin as [? ?].
    repeat split; try done. by left.
  - apply (elem_of_filter_by _ _ _ _ Hbp) in Hin as [? ?].
    repeat split; try done. by right.
Qed.

Lemma sample_catalogue_well_formed : Forall well_formed_record sample_catalogue.
Proof.
  repeat constructor.
  - exists {[ "id" := JStr "a:free"; "name" := JStr "A" ]}, "a:free".
    well_formed_record.
  - exists {[ "id" := JStr "b"; "pricing" := JObj {[ "prompt" := JStr "1" ]} ]}, "b".
    well_formed_record.
  - exists zero_priced_record, "c". well_formed_record.
Qed.

Lemma collect_no_junk_witness :
  manual_name MANUAL_MODELS (KStr "c") = Some (JStr "c")
  ∨ ∃ d mid, JObj d ∈ sample_catalogue ∧ selected (JObj d)
             ∧ d !! "id" = Some mid ∧ key_of mid = Some (KStr "c")
             ∧ JStr "c" = dict_get d "name" mid.
Proof.
  destruct (collect_free_models_with_total MANUAL_MODELS sample_catalogue
              sample_catalogue_well_formed) as [results Hres].
  apply (collect_no_junk MANUAL_MODELS sample_catalogue results (KStr "c")
           (JStr "c") Hres).
  change (result_lookup (Ok results) "c" = Some (JStr "c")).
  rewrite <- Hres. vm_compute. reflexivity.
Defined.

(** When the rules select no record (the catalogue is empty, say), the
    filtered map is the manual map. *)
Theorem collect_nothing_selected
    (manual : gmap string json) (models : list json) :
  Forall (λ m, is_free_by_suffix m = Ok false ∧ is_free_by_pricing m = Ok false)
    models →
  ∃ results, collect_free_models_with manual models = Ok results
             ∧ ∀ k, results !! k = manual_name manual k.
Proof.
  intros Hall. unfold collect_free_models_with.
  rewrite (filter_by_none is_free_by_suffix), (filter_by_none is_free_by_pricing);
    [| eapply Forall_impl; [exact Hall|]; by intros m [_ ?]
     | eapply Forall_impl; [exact Hall|]; by intros m [? _] ].
  cbn. eexists. split; [reflexivity|]. intros k.
  rewrite lookup_manual_loop, lookup_empty. by destruct (manual_name manual k).
Qed.

Lemma collect_nothing_selected_witness :
  result_lookup (collect_free_models []) "giga-potato"
  = Some (JStr "Giga Potato (free)")
  ∧ result_at (collect_free_models []) (KNum 5) = None.
Proof.
  destruct (collect_nothing_selected MANUAL_MODELS [] (List.Forall_nil _))
    as (results & Hc & Hres).
  unfold collect_free_models. rewrite Hc. unfold result_lookup, result_at.
  rewrite !Hres. split; vm_compute; reflexivity.
Defined.

(** ** Further properties of the removal scripts *)

Section removal_more.
Implicit Types (c ps : gmap string json) (key confirm : string) (doc : json).

(** The shape of a removal that writes. *)
Lemma remove_provider_Written key (d : disk) confirm (can_write : bool) doc :
  remove_provider key d confirm can_write = Written doc →
  ∃ c ps,
    d = Loaded (JObj c)
    ∧ c !! "provider" = Some (JObj ps)
    ∧ key ∈ dom ps
    ∧ confirmed confirm
    ∧ can_write = true
    ∧ doc = JObj (if dict_is_empty (delete key ps) then delete "provider" c
                  else <["provider" := JObj (delete key ps)]> c).
Proof.
  unfold remove_provider. destruct d as [| | |config]; try discriminate.
  destruct config as [| | | | | |c]; try discriminate. unfold get_or_empty, dict_get.
  destruct (c !! "provider") as [providers|] eqn:Hprov; cbn [default from_option id].
  - destruct (key_in key providers) as [[]|] eqn:Hin; try discriminate.
    destruct (String.eqb (lower (strip confirm)) "y") eqn:Hyes; [|discriminate].
    cbn [negb]. destruct providers as [| | | | | |ps]; try discriminate.
    destruct can_write; [|discriminate]. intros [= <-].
    exists c, ps. repeat split; try done.
    + cbn in Hin. injection Hin as Hin. by apply bool_decide_eq_true in Hin.
    + by apply String.eqb_eq.
  - cbn. rewrite bool_decide_eq_false_2; [discriminate|].
    rewrite dom_empty_L. apply not_elem_of_empty.
Qed.
End removal_more.

(** A removal script writes only when the file is a JSON object whose
    provider block has the key and the answer is a yes; what it writes has
    no entry under that key, and has every other provider and every other
    top-level key as the file had them. *)
Theorem removal_writes_only_the_removal
    (key : string) (d : disk) (confirm : string) (can_write : bool) (doc : json) :
  remove_provider key d confirm can_write = Written doc →
  ∃ c ps c',
    d = Loaded (JObj c)
    ∧ c !! "provider" = Some (JObj ps)
    ∧ key ∈ dom ps
    ∧ confirmed confirm
    ∧ doc = JObj c'
    ∧ lookup_path ["provider"; key] doc = None
    ∧ (∀ k, k ≠ key → lookup_path ["provider"; k] doc = ps !! k)
    ∧ (∀ k, k ≠ "provider" → c' !! k = c !! k).
Proof.
  intros (c & ps & -> & Hprov & Hin & Hyes & _ & ->)%remove_provider_Written.
  eexists c, ps, _. do 5 (split; [done|]).
  destruct (dict_is_empty (delete key ps)) eqn:Hemp.
  - apply dict_is_empty_true in Hemp. cbn [lookup_path].
    rewrite lookup_delete_eq. split; [done|]. split.
    + intros k Hk. cbn.
      by rewrite <- (lookup_delete_ne ps key k), Hemp, lookup_empty.
    + intros k Hk. by rewrite lookup_delete_ne.
  - cbn [lookup_path]. rewrite lookup_insert_eq. cbn. split; [|split].
    + by rewrite lookup_delete_eq.
    + intros k Hk. rewrite lookup_delete_ne by done. by destruct (ps !! k).
    + intros k Hk. by rewrite lookup_insert_ne.
Qed.

(** After a removal that wrote, the same script finds nothing to remove: it
    exits with status 0, without asking and without writing. *)
Theorem removal_twice
    (key : string) (d : disk) (confirm : string) (can_write : bool) (doc : json)
    (confirm' : string) (can_write' : bool) :
  remove_provider key d confirm can_write = Written doc →
  remove_provider key (Loaded doc) confirm' can_write' = Exited 0.
Proof.
  intros (c & ps & -> & Hprov & Hin & Hyes & _ & ->)%remove_provider_Written.
  unfold remove_provider, get_or_empty, dict_get.
  destruct (dict_is_empty (delete key ps)) eqn:Hemp.
  - rewrite lookup_delete_eq. cbn.
    rewrite bool_decide_eq_false_2; [done|].
    rewrite dom_empty_L. apply not_elem_of_empty.
  - rewrite lookup_insert_eq. cbn.
    rewrite bool_decide_eq_false_2; [done|].
    rewrite dom_delete_L. intros [_ Hne]%elem_of_difference.
    apply Hne. by apply elem_of_singleton.
Qed.

Lemma Loaded_inj (a b : json) : Loaded a = Loaded b → a = b.
Proof. by intros [= ->]. Qed.

Lemma remove_provider_writes (key : string) (c ps : gmap string json) (confirm : string) :
  c !! "provider" = Some (JObj ps) → key ∈ dom ps → confirmed confirm →
  remove_provider key (Loaded (JObj c)) confirm true
  = Written (JObj (if dict_is_empty (delete key ps) then delete "provider" c
                   else <["provider" := JObj (delete key ps)]> c)).
Proof.
  intros Hprov Hin Hyes. unfold remove_provider.
  rewrite (get_or_empty_Some _ _ _ Hprov). unfold key_in.
  rewrite bool_decide_eq_true_2 by done.
  unfold confirmed in Hyes. by rewrite Hyes.
Qed.

(** Two removals, of two keys, give the same file in either order: when one
    script and then the other have written, the other and then the one write
    too, and write the same. *)
Theorem removals_commute
    (key1 key2 : string) (config : json) (confirm1 confirm2 : string)
    (doc1 doc2 : json) :
  remove_provider key1 (Loaded config) confirm1 true = Written doc1 →
  remove_provider key2 (Loaded doc1) confirm2 true = Written doc2 →
  ∃ doc1',
    remove_provider key2 (Loaded config) confirm2 true = Written doc1'
    ∧ remove_provider key1 (Loaded doc1') confirm1 true = Written doc2.
Proof.
  intros (c & ps & Hd & Hprov & Hin1 & Hyes1 & _ & ->)%remove_provider_Written.
  apply Loaded_inj in Hd as ->.
  intros (c1 & ps1 & Hd & Hprov1 & Hin2 & Hyes2 & _ & ->)%remove_provider_Written.
  apply Loaded_inj, JObj_inj in Hd.
  destruct (dict_is_empty (delete key1 ps)) eqn:Hemp1.
  { subst c1. by rewrite lookup_delete_eq in Hprov1. }
  subst c1. rewrite lookup_insert_eq in Hprov1.
  apply (inj Some), JObj_inj in Hprov1. subst ps1.
  apply elem_of_dom in Hin2 as [v2 Hv2].
  assert (key1 ≠ key2) as Hne by (intros ->; by rewrite lookup_delete_eq in Hv2).
  rewrite lookup_delete_ne in Hv2 by done.
  assert (key2 ∈ dom ps) as Hin2 by (apply elem_of_dom; eauto).
  assert (dict_is_empty (delete key2 ps) = false) as Hemp2.
  { destruct (dict_is_empty (delete key2 ps)) eqn:Hemp; [|done].
    apply dict_is_empty_true in Hemp. apply elem_of_dom in Hin1 as [v1 Hv1].
    apply (f_equal (.!! key1)) in Hemp.
    rewrite lookup_delete_ne, Hv1, lookup_empty in Hemp by done. discriminate. }
  eexists. split.
  - rewrite (remove_provider_writes key2 c ps confirm2 Hprov Hin2 Hyes2), Hemp2.
    reflexivity.
  - rewrite (remove_provider_writes key1 _ (delete key2 ps) confirm1
               (lookup_insert_eq _ _ _)); [|apply elem_of_dom|done].
    2:{ apply elem_of_dom in Hin1 as [v1 Hv1]. exists v1.
        by rewrite lookup_delete_ne. }
    rewrite (delete_delete ps key1 key2).
    destruct (dict_is_empty (delete key2 (delete key1 ps))).
    + by rewrite !delete_insert_eq.
    + by rewrite !insert_insert_eq.
Qed.

Lemma three_providers_uninstall :
  uninstall_main (Loaded (JObj three_providers_config)) "y" true
  = Written (JObj (<["provider" := JObj (delete "kilo-gateway-free" three_providers)]>
                     three_providers_config)).
Proof.
  apply remove_provider_others.
  - vm_compute. reflexivity.
  - apply elem_of_dom. exists (JObj old_entry). vm_compute. reflexivity.
  - intros H. apply (f_equal (.!! "other-provider")) in H.
    vm_compute in H. discriminate H.
  - vm_compute. reflexivity.
Qed.

Lemma removal_writes_only_the_removal_witness :
  written_lookup (uninstall_main (Loaded (JObj three_providers_config)) "y" true)
    ["provider"; "kilo-anonymous"]
  = Some (JObj {[ "npm" := JStr "old" ]})
  ∧ written_lookup (uninstall_main (Loaded (JObj three_providers_config)) "y" true)
      ["provider"; "kilo-gateway-free"]
    = None.
Proof.
  destruct (removal_writes_only_the_removal _ _ _ _ _ three_providers_uninstall)
    as (c & ps & c' & Hd & Hprov & _ & _ & _ & Hgone & Hothers & _).
  apply Loaded_inj, JObj_inj in Hd. subst c.
  assert (Some (JObj three_providers) = Some (JObj ps)) as Hps
    by (rewrite <- Hprov; vm_compute; reflexivity).
  apply (inj Some), JObj_inj in Hps. subst ps.
  rewrite three_providers_uninstall. unfold written_lookup.
  split; [|exact Hgone].
  rewrite Hothers by done. vm_compute. reflexivity.
Defined.

Lemma removal_twice_witness :
  uninstall_main
    (Loaded (JObj (<["provider" := JObj (delete "kilo-gateway-free" three_providers)]>
                     three_providers_config)))
    "y" true
  = Exited 0.
Proof.
  exact (removal_twice _ _ _ _ _ "y" true three_providers_uninstall).
Defined.

Lemma three_providers_remove_old :
  remove_kilo_anonymous_main
    (Loaded (JObj (<["provider" := JObj (delete "kilo-gateway-free" three_providers)]>
                     three_providers_config)))
    " Y " true
  = Written (JObj {[ "theme" := JStr "dark";
                     "provider" := JObj {[ "other-provider" :=
                                             JObj {[ "npm" := JStr "x" ]} ]} ]}).
Proof. vm_compute. reflexivity. Qed.

Lemma removals_commute_witness :
  ∃ doc1',
    remove_kilo_anonymous_main (Loaded (JObj three_providers_config)) " Y " true
    = Written doc1'
    ∧ uninstall_main (Loaded doc1') "y" true
      = Written (JObj {[ "theme" := JStr "dark";
                         "provider" := JObj {[ "other-provider" :=
                                                 JObj {[ "npm" := JStr "x" ]} ]} ]}).
Proof.
  exact (removals_commute "kilo-gateway-free" "kilo-anonymous" _ "y" " Y " _ _
           three_providers_uninstall three_providers_remove_old).
Defined.

(** ** sync_models.py: the example config *)







(** ** [deep_merge] on a store of objects: what a call does to its arguments *)

Module HeapFacts.
Import Heap.

(** *** The call leaves the store it was given as it is *)

Section frame.
Implicit Types (σ : gmap positive object) (r result : positive).

Lemma set_item_Done σ result key v σ' r :
  set_item σ result key v = Done σ' r →
  r = result
  ∧ ∃ res, σ !! result = Some (ODict res)
           ∧ σ' = <[result := ODict (<[key := v]> res)]> σ.
Proof.
  unfold set_item. destruct (σ !! result) as [[res|]|]; try discriminate.
  intros [= <- <-]. eauto.
Qed.

(** A round that ends well started well, and either stored the value of the
    override or the dict a recursive call returned. *)
Lemma merge_round_Done rec result key v acc σ' r :
  merge_round rec result key v acc = Done σ' r →
  ∃ σ1 r1 res,
    acc = Done σ1 r1 ∧ σ1 !! result = Some (ODict res)
    ∧ ((∃ lb lo σ2 r',
          res !! key ≫= dict_loc σ1 = Some lb ∧ dict_loc σ1 v = Some lo
          ∧ rec σ1 lb lo = Done σ2 r'
          ∧ set_item σ2 result key (VRef r') = Done σ' r)
       ∨ ((res !! key ≫= dict_loc σ1 = None ∨ dict_loc σ1 v = None)
          ∧ set_item σ1 result key v = Done σ' r)).
Proof.
  unfold merge_round. destruct acc as [σ1 r1| |]; try discriminate.
  destruct (σ1 !! result) as [[res|]|] eqn:Hres; try discriminate.
  intros H. exists σ1, r1, res. split; [done|]. split; [done|].
  destruct (res !! key ≫= dict_loc σ1) as [lb|] eqn:Hlb; [|right; eauto].
  destruct (dict_loc σ1 v) as [lo|] eqn:Hlo; [|right; eauto].
  destruct (rec σ1 lb lo) as [σ2 r'| |] eqn:Hrec; try discriminate.
  left. by exists lb, lo, σ2, r'.
Qed.

(** The loop, for a recursive call that keeps the store it is given. *)
Lemma merge_loop_frame rec σ result b o σ' r :
  (∀ σ1 lb lo σ2 r', rec σ1 lb lo = Done σ2 r' → σ1 ⊆ σ2) →
  σ !! result = None →
  map_fold (merge_round rec result) (Done (<[result := ODict b]> σ) result) o
  = Done σ' r →
  r = result ∧ σ ⊆ σ' ∧ ∃ res, σ' !! result = Some (ODict res).
Proof.
  intros Hrec Hfresh. revert σ' r.
  apply (map_fold_weak_ind (λ acc (_ : gmap string value),
    ∀ σ' r, acc = Done σ' r →
      r = result ∧ σ ⊆ σ' ∧ ∃ res, σ' !! result = Some (ODict res))).
  - intros σ' r [= <- <-]. split; [done|]. split; [by apply insert_subseteq|].
    exists b. apply lookup_insert_eq.
  - intros key v m acc _ IH σ' r
      (σ1 & r1 & res & -> & Hres & Hcase)%merge_round_Done.
    destruct (IH σ1 r1 eq_refl) as (-> & Hsub & _).
    destruct Hcase as [(lb & lo & σ2 & r' & _ & _ & Hcall & Hset)|[_ Hset]].
    + apply set_item_Done in Hset as (-> & res2 & _ & ->).
      split; [done|]. split; [|eexists; apply lookup_insert_eq].
      apply insert_subseteq_r; [done|]. etrans; [exact Hsub|]. by eapply Hrec.
    + apply set_item_Done in Hset as (-> & res2 & _ & ->).
      split; [done|]. split; [|eexists; apply lookup_insert_eq].
      by apply insert_subseteq_r.
Qed.

Lemma fresh_lookup σ : σ !! fresh (dom σ) = None.
Proof. apply not_elem_of_dom, is_fresh. Qed.

(** Every object of the store of the call is in the store of the return,
    unchanged, and the dict that is returned is a new one. *)
Lemma deep_merge_frame fuel σ base override σ' r :
  deep_merge fuel σ base override = Done σ' r →
  σ ⊆ σ' ∧ σ !! r = None ∧ ∃ res, σ' !! r = Some (ODict res).
Proof.
  revert σ base override σ' r.
  induction fuel as [|fuel IH]; intros σ base override σ' r; [discriminate|].
  cbn [deep_merge].
  destruct (σ !! base) as [[b|]|]; try discriminate.
  destruct (σ !! override) as [[o|]|]; try discriminate.
  intros (-> & Hsub & Hres)%merge_loop_frame.
  - split; [done|]. split; [apply fresh_lookup | done].
  - intros σ1 lb lo σ2 r' Hcall. by destruct (IH _ _ _ _ _ Hcall).
  - apply fresh_lookup.
Qed.
End frame.

(** *** Reading values through the store *)

Section reading.
Implicit Types (σ : gmap positive object) (d : gmap string value).
Implicit Types (m : gmap string json) (f g : value → option json).

Lemma dict_mapM_insert f d k v :
  d !! k = None → map_first_key (<[k := v]> d) k →
  dict_mapM f (<[k := v]> d)
  = j ← f v; m ← dict_mapM f d; Some (<[k := j]> m).
Proof. intros Hk Hfirst. unfold dict_mapM. by rewrite map_fold_insert_first_key. Qed.

Lemma dict_mapM_Some f d m : dict_mapM f d = Some m ↔ reads_dict f d m.
Proof.
  revert m. induction d as [|k v d Hk Hfirst IH] using map_first_key_ind; intros m.
  - unfold dict_mapM. rewrite map_fold_empty. split.
    + intros [= <-] k. by rewrite !lookup_empty.
    + intros Hm. f_equal. symmetry. apply map_empty. intros k.
      specialize (Hm k). by rewrite lookup_empty in Hm.
  - rewrite dict_mapM_insert by done. split.
    + destruct (f v) as [j|] eqn:Hj; [|discriminate]. cbn.
      destruct (dict_mapM f d) as [m'|]; [|discriminate]. cbn.
      intros [= <-] k'. pose proof (proj1 (IH m') eq_refl k') as Hm'.
      destruct (decide (k = k')) as [<-|Hne].
      * rewrite !lookup_insert_eq. eauto.
      * by rewrite !lookup_insert_ne.
    + intros Hm. pose proof (Hm k) as Hmk. rewrite lookup_insert_eq in Hmk.
      destruct Hmk as (j & Hj & Hmj). rewrite Hj. cbn.
      assert (dict_mapM f d = Some (delete k m)) as ->.
      { apply IH. intros k'. specialize (Hm k').
        destruct (decide (k = k')) as [<-|Hne].
        - by rewrite Hk, lookup_delete_eq.
        - by rewrite lookup_insert_ne in Hm by done; rewrite lookup_delete_ne. }
      cbn. f_equal. by apply insert_delete_id.
Qed.

Lemma reads_dict_impl f g d m :
  (∀ v j, f v = Some j → g v = Some j) → reads_dict f d m → reads_dict g d m.
Proof.
  intros Hfg Hm k. specialize (Hm k). destruct (d !! k); [|done].
  destruct Hm as (j & Hj & Hmk). eauto.
Qed.

(** What was read in a store is read in every larger store. *)
Lemma reify_mono n σ σ' v j :
  σ ⊆ σ' → reify n σ v = Some j → reify n σ' v = Some j.
Proof.
  intros Hsub. revert v j. induction n as [|n IH]; intros [| | | | |l] j; try done.
  cbn [reify]. destruct (σ !! l) as [[d|vs]|] eqn:Hl; [| |discriminate].
  - rewrite (lookup_weaken _ _ _ _ Hl Hsub).
    destruct (dict_mapM (reify n σ) d) as [m|] eqn:Hm; [|discriminate].
    intros [= <-]. apply dict_mapM_Some in Hm.
    apply (reads_dict_impl _ (reify n σ')) in Hm; [|exact IH].
    apply dict_mapM_Some in Hm. by rewrite Hm.
  - rewrite (lookup_weaken _ _ _ _ Hl Hsub).
    destruct (mapM (reify n σ) vs) as [js|] eqn:Hjs; [|discriminate].
    intros [= <-]. apply mapM_Some in Hjs.
    assert (mapM (reify n σ') vs = Some js) as ->; [|done].
    apply mapM_Some. eapply Forall2_impl; [exact Hjs|]. apply IH.
Qed.

(** The dict read at a location. *)
Lemma reify_dict n σ l m :
  reify n σ (VRef l) = Some (JObj m) ↔
  ∃ n' d, n = S n' ∧ σ !! l = Some (ODict d) ∧ reads_dict (reify n' σ) d m.
Proof.
  destruct n as [|n]; [split; [discriminate|by intros (? & ? & ? & _)]|].
  cbn [reify]. split.
  - destruct (σ !! l) as [[d|vs]|]; [| |discriminate].
    + destruct (dict_mapM (reify n σ) d) as [m'|] eqn:Hm; [|discriminate].
      intros [= <-]. apply dict_mapM_Some in Hm. eauto.
    + by destruct (mapM _ _).
  - intros (n' & d & [= <-] & -> & Hm%dict_mapM_Some). by rewrite Hm.
Qed.
End reading.

(** *** The call returns *)

Section termination.
Implicit Types (σ : gmap positive object) (r result : positive).

Lemma dict_loc_Some σ v l :
  dict_loc σ v = Some l ↔ v = VRef l ∧ ∃ d, σ !! l = Some (ODict d).
Proof.
  unfold dict_loc. destruct v as [| | | | |l']; try (split; [discriminate|by intros [? _]]).
  destruct (σ !! l') as [[d|]|] eqn:Hl'.
  - split; [intros [= <-]; eauto | by intros [[= <-] _]].
  - split; [discriminate | intros [[= <-] (d & Hd)]]. congruence.
  - split; [discriminate | intros [[= <-] (d & Hd)]]. congruence.
Qed.

(** Reading a dict gives a dict. *)
Lemma reify_at_dict n σ l d j :
  σ !! l = Some (ODict d) → reify n σ (VRef l) = Some j → ∃ m, j = JObj m.
Proof.
  intros Hl. destruct n as [|n]; [discriminate|]. cbn [reify]. rewrite Hl.
  destruct (dict_mapM _ _) as [m|]; [|discriminate]. intros [= <-]. eauto.
Qed.

(** The loop ends well when the recursive call does so on every dict of the
    override that can be read. *)
Lemma merge_loop_total rec n σ result b o :
  (∀ σ1 lb lo σ2 r', rec σ1 lb lo = Done σ2 r' → σ1 ⊆ σ2) →
  (∀ σ1 lb lo db m,
      σ1 !! lb = Some (ODict db) → reify n σ1 (VRef lo) = Some (JObj m) →
      ∃ σ2 r', rec σ1 lb lo = Done σ2 r') →
  σ !! result = None →
  (∀ k v, o !! k = Some v → is_Some (reify n σ v)) →
  ∃ σ', map_fold (merge_round rec result)
          (Done (<[result := ODict b]> σ) result) o = Done σ' result.
Proof.
  intros Hframe Htotal Hfresh.
  induction o as [|k v o Hk Hfirst IH] using map_first_key_ind; intros Hread.
  - rewrite map_fold_empty. eauto.
  - rewrite map_fold_insert_first_key by done.
    destruct IH as [σ1 Hloop].
    { intros k' v' Hk'. apply (Hread k'). rewrite lookup_insert_ne; [done|].
      intros <-. congruence. }
    rewrite Hloop.
    destruct (merge_loop_frame _ _ _ _ _ _ _ Hframe Hfresh Hloop)
      as (_ & Hsub & res & Hres).
    unfold merge_round. rewrite Hres.
    destruct (res !! k ≫= dict_loc σ1) as [lb|] eqn:Hlb;
      [|unfold set_item; rewrite Hres; eauto].
    destruct (dict_loc σ1 v) as [lo|] eqn:Hlo;
      [|unfold set_item; rewrite Hres; eauto].
    destruct (res !! k) as [vb|]; [|discriminate]. cbn in Hlb.
    apply dict_loc_Some in Hlb as (-> & db & Hdb).
    apply dict_loc_Some in Hlo as (-> & do & Hdo).
    destruct (Hread k (VRef lo)) as [j Hj]; [apply lookup_insert_eq|].
    apply (reify_mono _ _ _ _ _ Hsub) in Hj.
    destruct (reify_at_dict _ _ _ _ _ Hdo Hj) as [m ->].
    destruct (Htotal _ _ _ _ _ Hdb Hj) as (σ2 & r' & Hcall).
    rewrite Hcall. unfold set_item.
    rewrite (lookup_weaken _ _ _ _ Hres (Hframe _ _ _ _ _ Hcall)). eauto.
Qed.

(** With fuel for the depth of the override, a call on two dicts returns. *)
Lemma deep_merge_terminates n σ base override b m :
  σ !! base = Some (ODict b) →
  reify n σ (VRef override) = Some (JObj m) →
  ∃ σ' r, deep_merge n σ base override = Done σ' r.
Proof.
  revert σ base override b m. induction n as [|n IH]; intros σ base override b m Hb;
    [discriminate|].
  intros (n' & o & [= <-] & Ho & Hm)%reify_dict.
  cbn [deep_merge]. rewrite Hb, Ho.
  destruct (merge_loop_total (deep_merge n) n σ (fresh (dom σ)) b o) as [σ' Hloop].
  - intros σ1 lb lo σ2 r' Hcall. by destruct (deep_merge_frame _ _ _ _ _ _ Hcall).
  - intros σ1 lb lo db m' Hdb Hread. by eapply IH.
  - apply fresh_lookup.
  - intros k v Hk. specialize (Hm k). rewrite Hk in Hm.
    destruct Hm as (j & Hj & _). eauto.
  - eauto.
Qed.

Lemma deep_merge_Done_args fuel σ base override σ' r :
  deep_merge fuel σ base override = Done σ' r →
  ∃ b o, σ !! base = Some (ODict b) ∧ σ !! override = Some (ODict o).
Proof.
  destruct fuel as [|fuel]; [discriminate|]. cbn [deep_merge].
  destruct (σ !! base) as [[b|]|]; try discriminate.
  destruct (σ !! override) as [[o|]|]; try discriminate.
  eauto.
Qed.
End termination.

(** *** The dict returned is the merge of the two dicts read *)

Section refinement.
Implicit Types (σ τ : gmap positive object) (r result : positive).
Implicit Types (b o : gmap string value) (jb jo : gmap string json).

(** A value read as a dict is a reference to a dict, in every larger store. *)
Lemma reify_dict_loc n τ σ v m :
  τ ⊆ σ → reify n τ v = Some (JObj m) →
  ∃ l, v = VRef l ∧ dict_loc σ v = Some l.
Proof.
  intros Hsub Hv. destruct v as [| | | | |l]; try (destruct n; discriminate).
  apply reify_dict in Hv as (n' & d & -> & Hl & _).
  exists l. split; [done|]. unfold dict_loc.
  by rewrite (lookup_weaken _ _ _ _ Hl Hsub).
Qed.

(** A reference to a dict is read as a dict. *)
Lemma dict_loc_reify n τ σ v l j :
  τ ⊆ σ → reify n τ v = Some j → dict_loc σ v = Some l →
  v = VRef l ∧ ∃ m, j = JObj m.
Proof.
  intros Hsub Hv (-> & d & Hd)%dict_loc_Some. split; [done|].
  destruct n as [|n]; [discriminate|]. cbn [reify] in Hv.
  destruct (τ !! l) as [ob|] eqn:Hl; [|discriminate].
  pose proof (lookup_weaken _ _ _ _ Hl Hsub) as Hl'.
  rewrite Hd in Hl'. injection Hl' as <-.
  destruct (dict_mapM _ _) as [m|]; [|discriminate].
  injection Hv as <-. eauto.
Qed.

Lemma merged_value_not_both (old : option json) (jv : json) :
  (∀ mb mo, old = Some (JObj mb) → jv = JObj mo → False) →
  merged_value old jv = jv.
Proof.
  intros Hno. unfold merged_value.
  destruct old as [[| | | | | |mb]|]; try done.
  destruct jv; try done. by destruct (Hno mb d).
Qed.

Lemma merge_round_refines rec n σ τ result b jb o k v acc :
  merges_at n rec →
  τ ⊆ σ → σ !! result = None →
  reads_dict (reify n τ) b jb →
  o !! k = None → is_Some (reify n τ v) →
  loop_state n σ τ result b jb o acc →
  loop_state n σ τ result b jb (<[k := v]> o)
    (merge_round rec result k v acc).
Proof.
  intros Hrec Hτσ Hfresh Hb Hk [jv Hjv]
    (σ1 & res & τ1 & -> & Hσ & Hres & Hτ & Hτ1 & Hτres & Hgrow & Hitems).
  pose proof (Hitems k) as Hresk. rewrite Hk in Hresk.
  pose proof (Hb k) as Hbk.
  assert (Hjv1 : reify n τ1 v = Some jv) by by eapply reify_mono.
  unfold merge_round. rewrite Hres.
  destruct (res !! k ≫= dict_loc σ1) as [lb|] eqn:Hlb;
    [destruct (dict_loc σ1 v) as [lo|] eqn:Hlo|].
  - (* both are dicts: the recursive call *)
    rewrite Hresk in Hlb. destruct (b !! k) as [vb|] eqn:Hvb; [|discriminate].
    cbn in Hlb. destruct Hbk as (jbk & Hjbk & Hjb).
    destruct (dict_loc_reify n τ1 σ1 vb lb jbk) as (-> & mb & ->);
      [done | by eapply reify_mono | done |].
    destruct (dict_loc_reify n τ1 σ1 v lo jv) as (-> & mo & ->); [done..|].
    destruct (Hrec σ1 τ1 lb lo mb mo) as
      (σ2 & r' & τ2 & Hcall & Hσ12 & Hτ12 & Hτ2 & Hgrow2 & Hr'); [done| |done|].
    { by eapply reify_mono. }
    rewrite Hcall. unfold set_item. rewrite (lookup_weaken _ _ _ _ Hres Hσ12).
    assert (τ2 !! result = None) as Hτ2res.
    { destruct (τ2 !! result) as [ob|] eqn:Hob; [|done].
      destruct (Hgrow2 result) as [[? Hin]|Hout]; [by eexists|congruence..]. }
    exists (<[result := ODict (<[k := VRef r']> res)]> σ2),
      (<[k := VRef r']> res), τ2.
    split; [done|]. split; [apply insert_subseteq_r; [done|by etrans]|].
    split; [apply lookup_insert_eq|]. split; [by etrans|].
    split; [by apply insert_subseteq_r|]. split; [done|]. split.
    { intros l Hl. destruct (Hgrow2 l Hl) as [Hin|Hout]; [by apply Hgrow|].
      right. by eapply lookup_weaken_None. }
    intros k'. destruct (decide (k = k')) as [<-|Hne].
    + rewrite !lookup_insert_eq. exists (JObj mo), (VRef r').
      split; [done|]. split; [done|]. by rewrite Hjb.
    + rewrite !lookup_insert_ne by done. specialize (Hitems k').
      destruct (o !! k') as [v'|]; [|done].
      destruct Hitems as (jv' & x & Hv' & Hx & Hread).
      exists jv', x. split; [done|]. split; [done|]. by eapply reify_mono.
  - (* the old value is a dict, the new one is not *)
    unfold set_item. rewrite Hres.
    exists (<[result := ODict (<[k := v]> res)]> σ1), (<[k := v]> res), τ1.
    split; [done|]. split; [by apply insert_subseteq_r|].
    split; [apply lookup_insert_eq|]. split; [done|].
    split; [by apply insert_subseteq_r|]. split; [done|]. split; [done|].
    intros k'. destruct (decide (k = k')) as [<-|Hne].
    + rewrite !lookup_insert_eq. exists jv, v. split; [done|]. split; [done|].
      rewrite merged_value_not_both; [done|].
      intros mb mo _ ->.
      destruct (reify_dict_loc n τ1 σ1 v mo) as (l & _ & Hl); [done..|].
      congruence.
    + rewrite !lookup_insert_ne by done. exact (Hitems k').
  - (* the old value is not a dict, or there is none *)
    unfold set_item. rewrite Hres.
    exists (<[result := ODict (<[k := v]> res)]> σ1), (<[k := v]> res), τ1.
    split; [done|]. split; [by apply insert_subseteq_r|].
    split; [apply lookup_insert_eq|]. split; [done|].
    split; [by apply insert_subseteq_r|]. split; [done|]. split; [done|].
    intros k'. destruct (decide (k = k')) as [<-|Hne].
    + rewrite !lookup_insert_eq. exists jv, v. split; [done|]. split; [done|].
      rewrite merged_value_not_both; [done|].
      intros mb mo Hjb _. rewrite Hresk in Hlb.
      destruct (b !! k) as [vb|]; [|by rewrite Hjb in Hbk].
      destruct Hbk as (jbk & Hjbk & Hjb'). rewrite Hjb in Hjb'.
      injection Hjb' as <-.
      destruct (reify_dict_loc n τ σ1 vb mb) as (l & _ & Hl);
        [by etrans | done |].
      cbn in Hlb. congruence.
    + rewrite !lookup_insert_ne by done. exact (Hitems k').
Qed.

Lemma merge_loop_refines rec n σ τ result b jb o :
  merges_at n rec →
  τ ⊆ σ → σ !! result = None →
  reads_dict (reify n τ) b jb →
  (∀ k v, o !! k = Some v → is_Some (reify n τ v)) →
  loop_state n σ τ result b jb o
    (map_fold (merge_round rec result) (Done (<[result := ODict b]> σ) result) o).
Proof.
  intros Hrec Hτσ Hfresh Hb.
  induction o as [|k v o Hk Hfirst IH] using map_first_key_ind; intros Hread.
  - rewrite map_fold_empty. exists (<[result := ODict b]> σ), b, τ.
    assert (τ !! result = None) by by eapply lookup_weaken_None.
    split; [done|]. split; [by apply insert_subseteq|].
    split; [apply lookup_insert_eq|]. split; [done|].
    split; [by apply insert_subseteq_r|]. split; [done|].
    split; [by left|]. intros k. by rewrite lookup_empty.
  - rewrite map_fold_insert_first_key by done.
    apply merge_round_refines; try done.
    + apply (Hread k). apply lookup_insert_eq.
    + apply IH. intros k' v' Hk'. apply (Hread k').
      rewrite lookup_insert_ne; [done|]. intros <-. congruence.
Qed.

(** The call on the store and the function on values agree: when the two
    dicts can be read in a part [τ] of the store, the call returns, and the
    dict it returns is read as [deep_merge] of the two values, in a part of
    the new store that adds new locations only to [τ]. *)
Theorem deep_merge_refines n : merges_at n (deep_merge n).
Proof.
  induction n as [|n IH]; intros σ τ base override jb jo Hτσ; [discriminate|].
  intros (n1 & b & [= <-] & Hbase & Hb)%reify_dict
         (n2 & o & [= <-] & Hover & Ho)%reify_dict.
  cbn [deep_merge].
  rewrite (lookup_weaken _ _ _ _ Hbase Hτσ), (lookup_weaken _ _ _ _ Hover Hτσ).
  set (result := fresh (dom σ)).
  destruct (merge_loop_refines (deep_merge n) n σ τ result b jb o)
    as (σ1 & res & τ1 & Hloop & Hσ & Hres & Hτ & Hτ1 & Hτres & Hgrow & Hitems);
    [done | done | apply fresh_lookup | done | |].
  { intros k v Hk. specialize (Ho k). rewrite Hk in Ho.
    destruct Ho as (j & Hj & _). eauto. }
  exists σ1, result, (<[result := ODict res]> τ1).
  split; [done|]. split; [done|].
  split; [etrans; [exact Hτ|by apply insert_subseteq]|].
  split; [by apply insert_subseteq_l|]. split.
  { intros l Hl. destruct (decide (l = result)) as [->|Hne].
    - right. apply fresh_lookup.
    - rewrite lookup_insert_ne in Hl by done. by apply Hgrow. }
  apply reify_dict. exists n, res. split; [done|].
  split; [apply lookup_insert_eq|].
  assert (τ1 ⊆ <[result := ODict res]> τ1) as Hτ1' by by apply insert_subseteq.
  intros k. specialize (Hitems k). specialize (Hb k). specialize (Ho k).
  rewrite lookup_deep_merge.
  destruct (o !! k) as [v|].
  - destruct Hitems as (jv & x & Hv & Hx & Hread).
    destruct Ho as (jv' & Hv' & ->). rewrite Hv in Hv'. injection Hv' as <-.
    rewrite Hx. exists (merged_value (jb !! k) jv).
    split; [by eapply reify_mono | done].
  - rewrite Ho, Hitems. destruct (b !! k) as [vb|]; [|done].
    destruct Hb as (j & Hj & Hjb). exists j. split; [|done].
    eapply reify_mono; [|exact Hj]. by etrans.
Qed.

(** On a store in which both dicts can be read, the call returns a dict that
    reads as [deep_merge] of what they read as. *)
Corollary deep_merge_reads n σ base override jb jo :
  reify n σ (VRef base) = Some (JObj jb) →
  reify n σ (VRef override) = Some (JObj jo) →
  ∃ σ' r,
    deep_merge n σ base override = Done σ' r
    ∧ reify n σ' (VRef r) = Some (JObj (dict_merge jb jo)).
Proof.
  intros Hb Ho.
  destruct (deep_merge_refines n σ σ base override jb jo)
    as (σ' & r & τ' & Hcall & _ & _ & Hτ' & _ & Hr); [done..|].
  exists σ', r. split; [done|]. by eapply reify_mono.
Qed.
End refinement.

(** Claim C6.  A call deep_merge(base, override) that returns leaves both
    arguments as they were: the dicts at base and at override are the same
    objects with the same items, every object of the store before the call is
    unchanged after it, so whatever could be read from a value before the
    call, to any depth, is read from it after the call; and the dict returned
    is a new object. *)
Theorem C6_deep_merge_leaves_arguments
    (fuel : nat) (σ σ' : gmap positive object) (base override r : positive) :
  deep_merge fuel σ base override = Done σ' r →
  σ' !! base = σ !! base
  ∧ σ' !! override = σ !! override
  ∧ (∀ l o, σ !! l = Some o → σ' !! l = Some o)
  ∧ (∀ n v j, reify n σ v = Some j → reify n σ' v = Some j)
  ∧ σ !! r = None
  ∧ ∃ res, σ' !! r = Some (ODict res).
Proof.
  intros Hcall.
  destruct (deep_merge_Done_args _ _ _ _ _ _ Hcall) as (b & o & Hb & Ho).
  destruct (deep_merge_frame _ _ _ _ _ _ Hcall) as (Hsub & Hnew & Hres).
  repeat split; try done.
  - rewrite Hb. by apply (lookup_weaken σ).
  - rewrite Ho. by apply (lookup_weaken σ).
  - intros l ob Hl. by apply (lookup_weaken σ).
  - intros n v j. by apply reify_mono.
Qed.

Lemma C6_witness :
  ∃ σ' r,
    deep_merge 2 sample_store 1 3 = Done σ' r
    ∧ reify 2 σ' (VRef 1) = Some (JObj sample_base)
    ∧ reify 2 σ' (VRef 3) = Some (JObj sample_override).
Proof.
  assert (reify 2 sample_store (VRef 1) = Some (JObj sample_base)) as Hbase
    by (vm_compute; reflexivity).
  assert (reify 2 sample_store (VRef 3) = Some (JObj sample_override)) as Hover
    by (vm_compute; reflexivity).
  destruct (deep_merge_terminates 2 sample_store 1 3
              {[ "a" := VRef 2; "b" := VInt 2 ]} sample_override)
    as (σ' & r & Hcall); [vm_compute; reflexivity | exact Hover |].
  exists σ', r. split; [exact Hcall|].
  destruct (C6_deep_merge_leaves_arguments 2 sample_store σ' 1 3 r Hcall)
    as (_ & _ & _ & Hread & _).
  split; by apply Hread.
Defined.

(** *** The dict returned shares what it did not merge *)

Section sharing.
Implicit Types (σ : gmap positive object) (r result : positive).
Implicit Types (b o : gmap string value).

Lemma dict_loc_weaken σ σ1 v :
  σ ⊆ σ1 → (∀ l, v = VRef l → is_Some (σ !! l)) →
  dict_loc σ1 v = dict_loc σ v.
Proof.
  intros Hsub Hwf. destruct v as [| | | | |l]; try done. cbn.
  destruct (Hwf l eq_refl) as [ob Hob].
  by rewrite Hob, (lookup_weaken _ _ _ _ Hob Hsub).
Qed.

(** The loop: a key the override does not have holds what the base holds; a
    key under which both hold dicts holds a new dict; any other key of the
    override holds the very value the override holds. *)
Lemma merge_loop_shares rec σ result b o σ' r :
  (∀ σ1 lb lo σ2 r', rec σ1 lb lo = Done σ2 r' → σ1 ⊆ σ2 ∧ σ1 !! r' = None) →
  σ !! result = None →
  no_dangling σ b → no_dangling σ o →
  map_fold (merge_round rec result) (Done (<[result := ODict b]> σ) result) o
  = Done σ' r →
  ∃ res, σ' !! r = Some (ODict res)
    ∧ ∀ k, match o !! k with
           | None => res !! k = b !! k
           | Some v =>
               match b !! k ≫= dict_loc σ, dict_loc σ v with
               | Some _, Some _ => ∃ l, res !! k = Some (VRef l) ∧ σ !! l = None
               | _, _ => res !! k = Some v
               end
           end.
Proof.
  intros Hrec Hfresh Hb Ho Hloop.
  cut (r = result ∧ σ ⊆ σ'
       ∧ ∃ res, σ' !! result = Some (ODict res)
         ∧ ∀ k, match o !! k with
                | None => res !! k = b !! k
                | Some v =>
                    match b !! k ≫= dict_loc σ, dict_loc σ v with
                    | Some _, Some _ =>
                        ∃ l, res !! k = Some (VRef l) ∧ σ !! l = None
                    | _, _ => res !! k = Some v
                    end
                end).
  { intros (-> & _ & res & Hres & Hinv). eauto. }
  revert Ho σ' r Hloop.
  apply (map_fold_weak_ind (λ acc (m : gmap string value),
    no_dangling σ m → ∀ σ' r, acc = Done σ' r →
      r = result ∧ σ ⊆ σ'
      ∧ ∃ res, σ' !! result = Some (ODict res)
        ∧ ∀ k, match m !! k with
               | None => res !! k = b !! k
               | Some v =>
                   match b !! k ≫= dict_loc σ, dict_loc σ v with
                   | Some _, Some _ =>
                       ∃ l, res !! k = Some (VRef l) ∧ σ !! l = None
                   | _, _ => res !! k = Some v
                   end
               end)).
  - intros _ σ' r [= <- <-]. split; [done|]. split; [by apply insert_subseteq|].
    exists b. split; [apply lookup_insert_eq|]. intros k. by rewrite lookup_empty.
  - intros key v m acc Hkey IH Hwf σ' r
      (σ1 & r1 & res & -> & Hres & Hcase)%merge_round_Done.
    assert (no_dangling σ m) as Hwf'.
    { intros k l Hk. apply (Hwf k). rewrite lookup_insert_ne; [done|].
      intros ->. congruence. }
    destruct (IH Hwf' σ1 r1 eq_refl)
      as (-> & Hsub & res' & Hres' & Hinv).
    rewrite Hres in Hres'. injection Hres' as <-.
    assert (res !! key = b !! key) as Hold
      by (specialize (Hinv key); by rewrite Hkey in Hinv).
    assert (dict_loc σ1 v = dict_loc σ v) as Hv.
    { apply dict_loc_weaken; [done|]. intros l ->. apply (Hwf key).
      apply lookup_insert_eq. }
    assert (res !! key ≫= dict_loc σ1 = b !! key ≫= dict_loc σ) as Hbk.
    { rewrite Hold. destruct (b !! key) as [x|] eqn:Hx; [|done]. cbn.
      apply dict_loc_weaken; [done|]. intros l ->. by apply (Hb key). }
    rewrite Hv, Hbk in Hcase.
    assert (∀ σ2 x, σ1 ⊆ σ2 →
              set_item σ2 result key x = Done σ' r →
              r = result ∧ σ ⊆ σ'
              ∧ ∃ res2, σ' !! result = Some (ODict res2)
                  ∧ res2 !! key = Some x
                  ∧ ∀ k, k ≠ key → res2 !! k = res !! k) as Hset.
    { intros σ2 x Hsub2 (-> & res2 & Hres2 & ->)%set_item_Done.
      split; [done|]. split.
      - apply insert_subseteq_r; [done|]. by etrans.
      - rewrite (lookup_weaken _ _ _ _ Hres Hsub2) in Hres2. injection Hres2 as <-.
        exists (<[key := x]> res). split; [apply lookup_insert_eq|].
        split; [apply lookup_insert_eq|]. intros k Hk. by apply lookup_insert_ne. }
    destruct Hcase as [(lb & lo & σ2 & r' & Hlb & Hlo & Hcall & Hdone)|[Hnot Hdone]].
    + destruct (Hrec _ _ _ _ _ Hcall) as [Hsub2 Hnew].
      destruct (Hset σ2 (VRef r') Hsub2 Hdone) as (-> & Hsub' & res2 & Hres2 & Hk & Hrest).
      split; [done|]. split; [done|]. exists res2. split; [done|].
      intros k. destruct (decide (k = key)) as [->|Hne].
      * rewrite lookup_insert_eq, Hlb, Hlo. exists r'. split; [done|].
        by apply (lookup_weaken_None σ σ1).
      * rewrite lookup_insert_ne by done. rewrite Hrest by done. apply Hinv.
    + destruct (Hset σ1 v (reflexivity _) Hdone) as (-> & Hsub' & res2 & Hres2 & Hk & Hrest).
      split; [done|]. split; [done|]. exists res2. split; [done|].
      intros k. destruct (decide (k = key)) as [->|Hne].
      * rewrite lookup_insert_eq.
        destruct Hnot as [-> | ->]; [done|]. by destruct (b !! key ≫= dict_loc σ).
      * rewrite lookup_insert_ne by done. rewrite Hrest by done. apply Hinv.
Qed.
End sharing.

(** What the dict returned holds, item by item: under a key the override
    does not have, the very value the base holds; under a key where both
    hold dicts, a new dict; under any other key of the override, the very
    value the override holds, a reference to the same list or dict if it is
    one.  The result shares these objects with its arguments. *)
Theorem deep_merge_shares
    (fuel : nat) (σ σ' : gmap positive object) (base override r : positive)
    (b o : gmap string value) :
  deep_merge fuel σ base override = Done σ' r →
  σ !! base = Some (ODict b) → σ !! override = Some (ODict o) →
  no_dangling σ b → no_dangling σ o →
  ∃ res, σ' !! r = Some (ODict res)
    ∧ ∀ k, match o !! k with
           | None => res !! k = b !! k
           | Some v =>
               match b !! k ≫= dict_loc σ, dict_loc σ v with
               | Some _, Some _ => ∃ l, res !! k = Some (VRef l) ∧ σ !! l = None
               | _, _ => res !! k = Some v
               end
           end.
Proof.
  destruct fuel as [|fuel]; [discriminate|]. cbn [deep_merge].
  intros Hcall Hb Ho Hwb Hwo. rewrite Hb, Ho in Hcall.
  apply (merge_loop_shares (deep_merge fuel) σ (fresh (dom σ)) b o σ' r);
    try done.
  - intros σ1 lb lo σ2 r' Hrec.
    by destruct (deep_merge_frame _ _ _ _ _ _ Hrec) as (? & ? & _).
  - apply fresh_lookup.
Qed.

Lemma deep_merge_shares_witness :
  ∃ σ' r res,
    deep_merge 2 sample_store 1 3 = Done σ' r
    ∧ σ' !! r = Some (ODict res)
    ∧ res !! "b" = Some (VInt 2)
    ∧ res !! "c" = Some (VRef 5).
Proof.
  set (b := {[ "a" := VRef 2; "b" := VInt 2 ]} : gmap string value).
  set (o := {[ "a" := VRef 4; "c" := VRef 5 ]} : gmap string value).
  assert (reify 2 sample_store (VRef 3) = Some (JObj sample_override)) as Hover
    by (vm_compute; reflexivity).
  destruct (deep_merge_terminates 2 sample_store 1 3 b sample_override)
    as (σ' & r & Hcall); [vm_compute; reflexivity | exact Hover |].
  destruct (deep_merge_shares 2 sample_store σ' 1 3 r b o Hcall)
    as (res & Hres & Hitems).
  - vm_compute. reflexivity.
  - vm_compute. reflexivity.
  - intros k l. unfold b. destruct (decide (k = "a")) as [->|Ha].
    + rewrite lookup_insert_eq. intros [= <-]. vm_compute. eauto.
    + rewrite lookup_insert_ne by done. destruct (decide (k = "b")) as [->|Hb].
      * by rewrite lookup_singleton_eq.
      * by rewrite lookup_singleton_ne.
  - intros k l. unfold o. destruct (decide (k = "a")) as [->|Ha].
    + rewrite lookup_insert_eq. intros [= <-]. vm_compute. eauto.
    + rewrite lookup_insert_ne by done. destruct (decide (k = "c")) as [->|Hc].
      * rewrite lookup_singleton_eq. intros [= <-]. vm_compute. eauto.
      * by rewrite lookup_singleton_ne.
  - exists σ', r, res. split; [done|]. split; [done|]. split.
    + pose proof (Hitems "b") as Hk.
      assert (o !! "b" = None) as E by (vm_compute; reflexivity).
      rewrite E in Hk. rewrite Hk. vm_compute. reflexivity.
    + pose proof (Hitems "c") as Hk.
      assert (o !! "c" = Some (VRef 5)) as E by (vm_compute; reflexivity).
      assert (b !! "c" ≫= dict_loc sample_store = None) as E'
        by (vm_compute; reflexivity).
      rewrite E, E' in Hk. exact Hk.
Defined.

End HeapFacts.
